(** * Expense-to-Notion: a shallow embedding of [index.js]

    The script reads a WeChat-Pay bill exported as CSV, infers the
    select options of the Notion database from the rows
    ([extractUniqueValues], [getDatabaseProperties]), pushes the schema
    ([updateDatabaseProperties]) and then creates one page per data row
    ([main]).

    Modelling choices, all following the JavaScript source:
    - a JS string is its sequence of UTF-16 code units, [list N];
    - [undefined] (a missing array element) is [None];
    - a [Set] is a duplicate-free list in insertion order, which is what
      [Array.from] returns;
    - the Notion client, the console, the file system and [Date] are the
      environment: the client is a state machine over an abstract state,
      console output and client calls are recorded in one event trace;
    - a number is an IEEE 754 binary64 value, kept as NaN, an infinity or
      sign, mantissa and binary exponent; [parseFloat] rounds the decimal
      value it reads to the nearest such value, ties to even, as the
      engine of Node.js does. *)

From Stdlib Require Import NArith ZArith String Ascii Bool Lia DecimalString.
From Stdlib Require Import SpecFloat.
From stdpp Require Import base list.

(** ** JavaScript strings *)

Module JS.

(** A string value: UTF-16 code units. *)
Definition jsstring : Type := list N.

(** The source file is UTF-8; literals are decoded to code points and then
    encoded as UTF-16, as the engine does when it reads the script. *)
Fixpoint utf8_decode (bs : list N) : list N :=
  match bs with
  | [] => []
  | b0 :: r0 =>
      if (b0 <? 0x80)%N then b0 :: utf8_decode r0
      else if (b0 <? 0xE0)%N then
        match r0 with
        | b1 :: r1 =>
            N.lor (N.shiftl (N.land b0 0x1F) 6) (N.land b1 0x3F)
              :: utf8_decode r1
        | _ => []
        end
      else if (b0 <? 0xF0)%N then
        match r0 with
        | b1 :: b2 :: r2 =>
            N.lor (N.shiftl (N.land b0 0x0F) 12)
              (N.lor (N.shiftl (N.land b1 0x3F) 6) (N.land b2 0x3F))
              :: utf8_decode r2
        | _ => []
        end
      else
        match r0 with
        | b1 :: b2 :: b3 :: r3 =>
            N.lor (N.shiftl (N.land b0 0x07) 18)
              (N.lor (N.shiftl (N.land b1 0x3F) 12)
                 (N.lor (N.shiftl (N.land b2 0x3F) 6) (N.land b3 0x3F)))
              :: utf8_decode r3
        | _ => []
        end
  end.

Definition utf16_encode_one (cp : N) : list N :=
  if (cp <? 0x10000)%N then [cp]
  else
    let v := (cp - 0x10000)%N in
    [(0xD800 + N.shiftr v 10)%N; (0xDC00 + N.land v 0x3FF)%N].

Definition utf16_encode (cps : list N) : jsstring :=
  concat (map utf16_encode_one cps).

(** [lit "..."] is the value of the string literal ['...'] of the source. *)
Definition lit (s : string) : jsstring :=
  utf16_encode (utf8_decode (map N_of_ascii (list_ascii_of_string s))).

(** [WhiteSpace] and [LineTerminator] of ECMAScript: the characters removed
    by [String.prototype.trim], skipped by [parseFloat] and matched by the
    regular-expression class [\s]. *)
Definition isWhiteSpace (c : N) : bool :=
  (c =? 0x09)%N || (c =? 0x0A)%N || (c =? 0x0B)%N || (c =? 0x0C)%N
  || (c =? 0x0D)%N || (c =? 0x20)%N || (c =? 0xA0)%N || (c =? 0x1680)%N
  || ((0x2000 <=? c)%N && (c <=? 0x200A)%N)
  || (c =? 0x2028)%N || (c =? 0x2029)%N || (c =? 0x202F)%N
  || (c =? 0x205F)%N || (c =? 0x3000)%N || (c =? 0xFEFF)%N.

Fixpoint dropWhile {A : Type} (p : A -> bool) (l : list A) : list A :=
  match l with
  | [] => []
  | x :: r => if p x then dropWhile p r else l
  end.

Fixpoint takeWhile {A : Type} (p : A -> bool) (l : list A) : list A :=
  match l with
  | [] => []
  | x :: r => if p x then x :: takeWhile p r else []
  end.

Definition trimStart (s : jsstring) : jsstring := dropWhile isWhiteSpace s.
Definition trimEnd (s : jsstring) : jsstring :=
  rev (dropWhile isWhiteSpace (rev s)).

(** [s.trim()] *)
Definition trim (s : jsstring) : jsstring := trimEnd (trimStart s).

(** [s.split(sep)] for a separator of one code unit. The result is never
    empty: [''.split(',')] is [['']]. *)
Fixpoint split (sep : N) (s : jsstring) : list jsstring :=
  match s with
  | [] => [[]]
  | c :: r =>
      if (c =? sep)%N then [] :: split sep r
      else
        match split sep r with
        | w :: ws => (c :: w) :: ws
        | [] => [[c]]
        end
  end.

Fixpoint startsWith (pat s : jsstring) : bool :=
  match pat, s with
  | [], _ => true
  | _ :: _, [] => false
  | p :: pat', c :: s' => (p =? c)%N && startsWith pat' s'
  end.

(** [s.includes(pat)] *)
Fixpoint includes (s pat : jsstring) : bool :=
  startsWith pat s
  || match s with
     | [] => false
     | _ :: r => includes r pat
     end.

(** [arr.findIndex(p)]; [None] stands for [-1]. *)
Fixpoint findIndex {A : Type} (p : A -> bool) (l : list A) : option nat :=
  match l with
  | [] => None
  | x :: r => if p x then Some 0 else S <$> findIndex p r
  end.

(** Truthiness of a value that is a string or [undefined]. *)
Definition truthy (v : option jsstring) : bool :=
  match v with
  | Some (_ :: _) => true
  | _ => false
  end.

(** [v || d] for such a value and a string literal [d]. *)
Definition orElse (v : option jsstring) (d : jsstring) : jsstring :=
  match v with
  | Some (c :: r) => c :: r
  | _ => d
  end.

(** The string held by a value that a truthiness test has shown to be
    one. *)
Definition stringOf (v : option jsstring) : jsstring :=
  match v with
  | Some s => s
  | None => []
  end.

Definition jsstring_eqb (a b : jsstring) : bool :=
  bool_decide (a = b).

(** [new Set()], [set.add(x)] and [Array.from(set)]: insertion order, an
    element already present is not added again. *)
Definition Set_add (x : jsstring) (s : list jsstring) : list jsstring :=
  if existsb (jsstring_eqb x) s then s else s ++ [x].

(** [String(n)] for a non-negative integer counter. *)
Definition ofNat (n : nat) : jsstring :=
  map N_of_ascii
    (list_ascii_of_string (NilEmpty.string_of_uint (Nat.to_uint n))).

End JS.

Import JS.

(** ** Literals of the script *)

Definition NEWLINE : N := 10.
Definition COMMA : N := 44.
Definition QUOTE : N := 34.
Definition YEN : N := 0xA5.

(** ['交易时间,交易类型'], the start of the column header line. *)
Definition HEADER_MARKER : jsstring := Eval vm_compute in lit "交易时间,交易类型".

Definition FALLBACK_CATEGORY : jsstring := Eval vm_compute in lit "其他".
Definition FALLBACK_PAYMENT_METHOD : jsstring := Eval vm_compute in lit "未知".
Definition FALLBACK_COUNTERPARTY : jsstring := Eval vm_compute in lit "未知".
Definition FALLBACK_NAME : jsstring := Eval vm_compute in lit "(无商品名)".
Definition TYPE_INCOME : jsstring := Eval vm_compute in lit "收入".
Definition TYPE_EXPENSE : jsstring := Eval vm_compute in lit "支出".

(** ** Splitting a data line into columns *)

(** [col.replace(/^"|"$/g, '')]: the global scan visits the positions from
    left to right; at a position the pattern matches a quote that stands at
    the start of the string, or a quote that is followed by the end of the
    string. [atStart] tells whether the position is index 0. *)
Fixpoint replaceQuotesFrom (atStart : bool) (s : jsstring) : jsstring :=
  match s with
  | [] => []
  | c :: r =>
      if (c =? QUOTE)%N && (atStart || bool_decide (r = []))
      then replaceQuotesFrom false r
      else c :: replaceQuotesFrom false r
  end.

Definition replaceQuotes (s : jsstring) : jsstring := replaceQuotesFrom true s.

(** [(col) => col.trim().replace(/^"|"$/g, '')] *)
Definition cleanColumn (col : jsstring) : jsstring := replaceQuotes (trim col).

(** [line.split(',').map(...)] *)
Definition parseColumns (line : jsstring) : list jsstring :=
  map cleanColumn (split COMMA line).

(** ** Schema inference: [extractUniqueValues] *)

Record UniqueValues : Type := mkUniqueValues {
  categories : list jsstring;
  paymentMethods : list jsstring
}.

(** One turn of the [for] loop; the accumulator holds the two sets. *)
Definition scanLine (acc : list jsstring * list jsstring) (raw : jsstring)
  : list jsstring * list jsstring :=
  let line := trim raw in
  if bool_decide (line = []) then acc
  else
    let columns := parseColumns line in
    let type := columns !! 1%nat in
    let paymentMethod := columns !! 6%nat in
    let cats := if truthy type then Set_add (stringOf type) acc.1 else acc.1 in
    let pms :=
      if truthy paymentMethod then Set_add (stringOf paymentMethod) acc.2
      else acc.2 in
    (cats, pms).

Definition isHeaderLine (line : jsstring) : bool := includes line HEADER_MARKER.

Definition extractUniqueValues (csvContent : jsstring) : UniqueValues :=
  let lines := split NEWLINE csvContent in
  match findIndex isHeaderLine lines with
  | None => {| categories := []; paymentMethods := [] |}
  | Some dataStartIndex =>
      let sets := fold_left scanLine (drop (S dataStartIndex) lines) ([], []) in
      {| categories := sets.1; paymentMethods := sets.2 |}
  end.

(** ** The schema definition: [getDatabaseProperties] *)

Record SelectOption : Type := mkOption { name : jsstring }.

Inductive PropertyConfig : Type :=
| TitleProp
| DateProp
| SelectProp (options : list SelectOption)
| RichTextProp
| NumberProp.

Module Schema.
Record t : Type := mk {
  Name : PropertyConfig;
  Date : PropertyConfig;
  Category : PropertyConfig;
  Counterparty : PropertyConfig;
  Type_ : PropertyConfig;
  Amount : PropertyConfig;
  Payment_Method : PropertyConfig
}.
End Schema.

Definition getDatabaseProperties (uniqueValues : UniqueValues) : Schema.t :=
  {| Schema.Name := TitleProp;
     Schema.Date := DateProp;
     Schema.Category :=
       SelectProp (map mkOption (categories uniqueValues)
                     ++ [mkOption FALLBACK_CATEGORY]);
     Schema.Counterparty := RichTextProp;
     Schema.Type_ := SelectProp [mkOption TYPE_INCOME; mkOption TYPE_EXPENSE];
     Schema.Amount := NumberProp;
     Schema.Payment_Method :=
       SelectProp (map mkOption (paymentMethods uniqueValues)
                     ++ [mkOption FALLBACK_PAYMENT_METHOD]) |}.

(** The option names of a select field, in order; [[]] for another field. *)
Definition optionNames (p : PropertyConfig) : list jsstring :=
  match p with
  | SelectProp options => map name options
  | _ => []
  end.

(** ** Amounts: normalisation and [parseFloat] *)

(** The class [[¥\s,]] of the amount clean-up. *)
Definition isAmountNoise (c : N) : bool :=
  (c =? YEN)%N || isWhiteSpace c || (c =? COMMA)%N.

(** [amountStr.replace(/[¥\s,]/g, '')] *)
Definition normalizeAmount (amountStr : jsstring) : jsstring :=
  List.filter (fun c => negb (isAmountNoise c)) amountStr.

(** A Number: NaN, an infinity, or the binary64 value
    [(-1)^neg * m * 2^e], in its canonical form: [2^52 <= m < 2^53] and
    [-1074 <= e <= 971] for a normal number, [m < 2^52] and [e = -1074]
    for a subnormal one, [m = 0] and [e = 0] for a zero. *)
Inductive number : Type :=
| NaN
| Infinity (neg : bool)
| Finite (neg : bool) (m : N) (e : Z).

Definition isNaN (x : number) : bool :=
  match x with
  | NaN => true
  | _ => false
  end.

Definition isDigit (c : N) : bool := (48 <=? c)%N && (c <=? 57)%N.

(** Value of a run of decimal digits, most significant first. *)
Definition digitsValue (ds : jsstring) : N :=
  fold_left (fun acc d => (10 * acc + (d - 48))%N) ds 0%N.

Definition INFINITY_WORD : jsstring := Eval vm_compute in lit "Infinity".

(** The binary64 value nearest to the positive rational [n / d], ties to
    even, as mantissa and exponent; [None] when it rounds to infinity.
    [k] is the binary exponent of the value, [2^k <= n / d < 2^(k+1)], and
    [e] the exponent of the last kept bit. *)
Definition roundRatio (n d : Z) : option (Z * Z) :=
  let k0 := (Z.log2 n - Z.log2 d)%Z in
  let reached :=
    if (0 <=? k0)%Z then (d * 2 ^ k0 <=? n)%Z else (d <=? n * 2 ^ (- k0))%Z in
  let k := if reached then k0 else (k0 - 1)%Z in
  let e := Z.max (k - 52) (-1074) in
  let num := if (0 <=? e)%Z then n else (n * 2 ^ (- e))%Z in
  let den := if (0 <=? e)%Z then (d * 2 ^ e)%Z else d in
  let q := (num / den)%Z in
  let r := (num mod den)%Z in
  let m :=
    match (2 * r ?= den)%Z with
    | Lt => q
    | Gt => (q + 1)%Z
    | Eq => if Z.even q then q else (q + 1)%Z
    end in
  if (m =? 0)%Z then Some (0, 0)%Z
  else
    let '(m', e') :=
      if (m =? 2 ^ 53)%Z then (2 ^ 52, e + 1)%Z else (m, e) in
    if (971 <? e')%Z then None else Some (m', e').

(** The Number value of the decimal [(-1)^neg * mant * 10^exp10]. *)
Definition roundDecimal (neg : bool) (mant : N) (exp10 : Z) : number :=
  let magnitude :=
    if (mant =? 0)%N then Some (0, 0)%Z
    else if (0 <=? exp10)%Z then roundRatio (Z.of_N mant * 10 ^ exp10) 1
    else roundRatio (Z.of_N mant) (10 ^ (- exp10)) in
  match magnitude with
  | Some (m, e) => Finite neg (Z.to_N m) e
  | None => Infinity neg
  end.

(** [ExponentPart] at the head of [s], if there is one: [e] or [E], an
    optional sign and at least one digit. *)
Definition exponentPart (s : jsstring) : Z :=
  match s with
  | c :: r =>
      if (c =? 101)%N || (c =? 69)%N then
        match r with
        | sg :: r' =>
            if (sg =? 43)%N then
              match takeWhile isDigit r' with
              | [] => 0%Z
              | ds => Z.of_N (digitsValue ds)
              end
            else if (sg =? 45)%N then
              match takeWhile isDigit r' with
              | [] => 0%Z
              | ds => (- Z.of_N (digitsValue ds))%Z
              end
            else
              match takeWhile isDigit r with
              | [] => 0%Z
              | ds => Z.of_N (digitsValue ds)
              end
        | [] => 0%Z
        end
      else 0%Z
  | [] => 0%Z
  end.

(** The longest prefix of [s] of one of the forms [digits], [digits.],
    [digits.digits] or [.digits], each with an optional exponent part. *)
Definition parseDecimal (neg : bool) (s : jsstring) : number :=
  let int := takeWhile isDigit s in
  let afterInt := dropWhile isDigit s in
  match afterInt with
  | c :: r =>
      if (c =? 46)%N then
        let frac := takeWhile isDigit r in
        let afterFrac := dropWhile isDigit r in
        match int, frac with
        | [], [] => NaN
        | _, _ =>
            roundDecimal neg (digitsValue (int ++ frac))
              (exponentPart afterFrac - Z.of_nat (length frac))%Z
        end
      else
        match int with
        | [] => NaN
        | _ => roundDecimal neg (digitsValue int) (exponentPart afterInt)
        end
  | [] =>
      match int with
      | [] => NaN
      | _ => roundDecimal neg (digitsValue int) 0%Z
      end
  end.

(** The longest prefix of [s] that is a [StrUnsignedDecimalLiteral]. *)
Definition parseUnsigned (neg : bool) (s : jsstring) : number :=
  if startsWith INFINITY_WORD s then Infinity neg else parseDecimal neg s.

(** [parseFloat(s)]: skip leading white space, read an optional sign, then
    the longest prefix that is a decimal literal; NaN when there is none. *)
Definition parseFloat (s : jsstring) : number :=
  match trimStart s with
  | c :: r =>
      if (c =? 43)%N then parseUnsigned false r
      else if (c =? 45)%N then parseUnsigned true r
      else parseUnsigned false (c :: r)
  | [] => NaN
  end.

(** ** Effects: the console, the Notion client, the process *)

(** What the script reads of an error: [error.message] and [error.body]
    ([None] when the error carries no body). *)
Record error : Type := mkError {
  message : jsstring;
  body : option jsstring
}.

(** The answer of an awaited client call. *)
Inductive response (A : Type) : Type :=
| Resolved (a : A)
| Rejected (e : error).
Arguments Resolved {A} a.
Arguments Rejected {A} e.

(** How a piece of code ends: normally, by a [throw], or by
    [process.exit(code)], which no handler catches. *)
Inductive completion (A : Type) : Type :=
| Normal (a : A)
| Throw (e : error)
| Exit (code : nat).
Arguments Normal {A} a.
Arguments Throw {A} e.
Arguments Exit {A} code.

(** The object returned by [databases.retrieve], as far as it is read:
    [Object.keys(database.properties)]. *)
Record Database : Type := mkDatabase { propertyKeys : list jsstring }.

(** The [properties] of a [pages.create] call. *)
Module Page.
Record t : Type := mk {
  Name : jsstring;
  Date : jsstring;
  Category : jsstring;
  Counterparty : jsstring;
  Type_ : jsstring;
  Amount : number;
  Payment_Method : jsstring
}.
End Page.

Inductive logarg : Type :=
| AStr (s : jsstring)
| AUndefined
| AList (l : list jsstring)
| AError (e : error).

Definition argOf (v : option jsstring) : logarg :=
  match v with
  | Some s => AStr s
  | None => AUndefined
  end.

Inductive event : Type :=
| ConsoleLog (args : list logarg)
| ConsoleError (args : list logarg)
| DatabasesRetrieve
| DatabasesUpdate (properties : Schema.t)
| PagesCreate (page : Page.t).

Record Counters : Type := mkCounters {
  successCount : nat;
  failureCount : nat
}.

Definition countSuccess (c : Counters) : Counters :=
  {| successCount := S (successCount c); failureCount := failureCount c |}.
Definition countFailure (c : Counters) : Counters :=
  {| successCount := successCount c; failureCount := S (failureCount c) |}.

(** A computation over the state [R] of the remote service that also
    writes events. *)
Definition M (R A : Type) : Type := R -> completion A * R * list event.

Definition ret {R A} (a : A) : M R A := fun r => (Normal a, r, []).

Definition bind {R A B} (m : M R A) (f : A -> M R B) : M R B :=
  fun r =>
    match m r with
    | (Normal a, r1, ev1) =>
        match f a r1 with
        | (c, r2, ev2) => (c, r2, ev1 ++ ev2)
        end
    | (Throw e, r1, ev1) => (Throw e, r1, ev1)
    | (Exit n, r1, ev1) => (Exit n, r1, ev1)
    end.

Definition throw {R A} (e : error) : M R A := fun r => (Throw e, r, []).
Definition exit {R A} (code : nat) : M R A := fun r => (Exit code, r, []).
Definition emit {R} (ev : event) : M R unit := fun r => (Normal tt, r, [ev]).

(** [try { m } catch (error) { h error }] *)
Definition tryCatch {R A} (m : M R A) (h : error -> M R A) : M R A :=
  fun r =>
    match m r with
    | (Throw e, r1, ev1) =>
        match h e r1 with
        | (c, r2, ev2) => (c, r2, ev1 ++ ev2)
        end
    | other => other
    end.

(** [await call]: the call is recorded, a rejection is thrown. *)
Definition await {R A} (call : R -> response A * R) (ev : event) : M R A :=
  fun r =>
    match call r with
    | (Resolved a, r1) => (Normal a, r1, [ev])
    | (Rejected e, r1) => (Throw e, r1, [ev])
    end.

Declare Scope js_scope.
Delimit Scope js_scope with js.
Notation "'let*' x ':=' m 'in' k" := (bind m (fun x => k))
  (at level 10, x name, m at level 100, k at level 200) : js_scope.
Notation "m ';;;' k" := (bind m (fun _ => k))
  (at level 100, k at level 200, right associativity) : js_scope.

(** The environment of a run: the Notion client over its state [Remote],
    [new Date(s)] ([None] is an invalid date) with [toISOString] on a valid
    date, [path.resolve], [fs.existsSync], [fs.readFileSync(_, 'utf8')] and
    [JSON.stringify(_, null, 2)]. *)
Class Environment : Type := {
  Remote : Type;
  retrieve : Remote -> response Database * Remote;
  update : Schema.t -> Remote -> response unit * Remote;
  create : Page.t -> Remote -> response unit * Remote;
  DateValue : Type;
  Date_parse : jsstring -> option DateValue;
  toISOString : DateValue -> jsstring;
  resolve : jsstring -> jsstring;
  existsSync : jsstring -> bool;
  readFileSync : jsstring -> response jsstring;
  JSON_stringify : jsstring -> jsstring
}.

Section Script.

Context {env : Environment}.

Local Open Scope js_scope.

Definition updateDatabaseProperties (properties : Schema.t) : M Remote Database :=
  tryCatch
    (let* database := await retrieve DatabasesRetrieve in
     emit (ConsoleLog [AStr (lit "当前数据库属性:");
                       AList (propertyKeys database)]) ;;;
     await (update properties) (DatabasesUpdate properties) ;;;
     emit (ConsoleLog [AStr (lit "✅ 数据库属性已更新")]) ;;;
     await retrieve DatabasesRetrieve)
    (fun error =>
       emit (ConsoleError [AStr (lit "更新数据库属性失败:"); AError error]) ;;;
       throw error).

(** The record sent for a row, with the fallbacks of the source. *)
Definition buildPage (columns : list jsstring) (dateValue : DateValue)
    (amount : number) : Page.t :=
  let type := columns !! 1%nat in
  let counterparty := columns !! 2%nat in
  let description := columns !! 3%nat in
  let transactionType := columns !! 4%nat in
  let paymentMethod := columns !! 6%nat in
  {| Page.Name := orElse description FALLBACK_NAME;
     Page.Date := toISOString dateValue;
     Page.Category := orElse type FALLBACK_CATEGORY;
     Page.Counterparty := orElse counterparty FALLBACK_COUNTERPARTY;
     Page.Type_ := orElse transactionType TYPE_EXPENSE;
     Page.Amount := amount;
     Page.Payment_Method := orElse paymentMethod FALLBACK_PAYMENT_METHOD |}.

(** The [catch] block of a row. *)
Definition rowFailed (line : jsstring) (cnt : Counters) (error : error)
  : M Remote Counters :=
  emit (ConsoleError [AStr (lit "❌ 导入失败:"); AStr (message error)]) ;;;
  emit (ConsoleError [AStr (lit "失败的数据行:"); AStr line]) ;;;
  (if truthy (body error) then
     emit (ConsoleError [AStr (lit "详细错误:");
                         AStr (JSON_stringify (stringOf (body error)))])
   else ret tt) ;;;
  ret (countFailure cnt).

(** One turn of the import loop of [main], for the line [lines[i]] and the
    counters on entry; it returns the counters on exit. *)
Definition importRow (raw : jsstring) (cnt : Counters) : M Remote Counters :=
  let line := trim raw in
  if bool_decide (line = []) then ret cnt
  else
    let columns := parseColumns line in
    let dateStr := columns !! 0%nat in
    let description := columns !! 3%nat in
    let amountStr := columns !! 5%nat in
    if negb (truthy dateStr) || negb (truthy amountStr) then ret cnt
    else
      tryCatch
        (match Date_parse (stringOf dateStr) with
         | None =>
             emit (ConsoleError [AStr (lit "无效的日期:"); argOf dateStr]) ;;;
             ret (countFailure cnt)
         | Some dateValue =>
             let amount := parseFloat (normalizeAmount (stringOf amountStr)) in
             if isNaN amount then
               emit (ConsoleError [AStr (lit "无效的金额:"); argOf amountStr]) ;;;
               ret (countFailure cnt)
             else
               let page := buildPage columns dateValue amount in
               await (create page) (PagesCreate page) ;;;
               emit (ConsoleLog [AStr (lit "✅ 已导入:"); argOf dateStr;
                                 argOf description; argOf amountStr]) ;;;
               ret (countSuccess cnt)
         end)
        (rowFailed line cnt).

(** The [for] loop over the lines after the header. *)
Fixpoint importRows (lines : list jsstring) (cnt : Counters) : M Remote Counters :=
  match lines with
  | [] => ret cnt
  | raw :: rest =>
      let* cnt' := importRow raw cnt in
      importRows rest cnt'
  end.

Definition main (csvPath : option jsstring) : M Remote unit :=
  tryCatch
    (if negb (truthy csvPath) then
       emit (ConsoleError [AStr (lit "请提供 CSV 文件路径！")]) ;;;
       emit (ConsoleLog [AStr (lit "使用方法: node index.js <CSV文件路径>")]) ;;;
       exit 1
     else
       let absolutePath := resolve (stringOf csvPath) in
       if negb (existsSync absolutePath) then
         emit (ConsoleError [AStr (lit "文件不存在:"); AStr absolutePath]) ;;;
         exit 1
       else
         emit (ConsoleLog [AStr (lit "正在读取文件:"); AStr absolutePath]) ;;;
         let* csvContent :=
           match readFileSync absolutePath with
           | Resolved c => ret c
           | Rejected e => throw e
           end in
         emit (ConsoleLog [AStr (lit "正在分析 CSV 文件中的唯一值...")]) ;;;
         let uniqueValues := extractUniqueValues csvContent in
         emit (ConsoleLog [AStr (lit "发现的交易类型:");
                           AList (categories uniqueValues)]) ;;;
         emit (ConsoleLog [AStr (lit "发现的支付方式:");
                           AList (paymentMethods uniqueValues)]) ;;;
         emit (ConsoleLog [AStr (lit "正在更新数据库结构...")]) ;;;
         let properties := getDatabaseProperties uniqueValues in
         let* database := updateDatabaseProperties properties in
         emit (ConsoleLog [AStr (lit "数据库属性已更新:");
                           AList (propertyKeys database)]) ;;;
         let lines := split NEWLINE csvContent in
         match findIndex isHeaderLine lines with
         | None => throw (mkError (lit "找不到数据部分") None)
         | Some dataStartIndex =>
             let* cnt :=
               importRows (drop (S dataStartIndex) lines) (mkCounters 0 0) in
             emit (ConsoleLog [AStr (NEWLINE :: lit "导入统计:")]) ;;;
             emit (ConsoleLog [AStr (lit "✅ 成功导入: "
                                       ++ ofNat (successCount cnt)
                                       ++ lit " 条")]) ;;;
             emit (ConsoleLog [AStr (lit "❌ 导入失败: "
                                       ++ ofNat (failureCount cnt)
                                       ++ lit " 条")]) ;;;
             emit (ConsoleLog [AStr (lit "🎉 处理完成！")])
         end)
    (fun error =>
       emit (ConsoleError [AStr (lit "处理过程中出错:"); AError error])).

End Script.

(** ** Reference definitions used in the statements *)

(** Remove a quote at the head, and a quote at the end. *)
Definition dropLeadingQuote (s : jsstring) : jsstring :=
  match s with
  | c :: r => if (c =? QUOTE)%N then r else s
  | [] => []
  end.

Definition dropTrailingQuote (s : jsstring) : jsstring :=
  rev (dropLeadingQuote (rev s)).

(** The field clean-up as the specification words it: after trimming, the
    two quotes are removed only when the text both starts and ends with
    one. *)
Definition cleanColumn_spec (col : jsstring) : jsstring :=
  let t := trim col in
  match t with
  | c :: r =>
      if (c =? QUOTE)%N && bool_decide (last r = Some QUOTE)
      then removelast r
      else t
  | [] => []
  end.

(** The pages of the [pages.create] calls of a trace, in order. *)
Fixpoint createdPages (evs : list event) : list Page.t :=
  match evs with
  | [] => []
  | PagesCreate page :: rest => page :: createdPages rest
  | _ :: rest => createdPages rest
  end.

(** The events written by a computation started in state [r]. *)
Definition eventsOf {R A} (m : M R A) (r : R) : list event := (m r).2.
Definition completionOf {R A} (m : M R A) (r : R) : completion A := (m r).1.1.

(** The grammar [StrDecimalLiteral] of ECMAScript, which [parseFloat]
    reads. *)
Definition DecimalDigits (s : jsstring) : Prop :=
  s <> [] /\ forallb isDigit s = true.

Inductive SignedInteger : jsstring -> Prop :=
| SI_plain ds : DecimalDigits ds -> SignedInteger ds
| SI_plus ds : DecimalDigits ds -> SignedInteger (43%N :: ds)
| SI_minus ds : DecimalDigits ds -> SignedInteger (45%N :: ds).

Inductive ExponentPartOpt : jsstring -> Prop :=
| EP_none : ExponentPartOpt []
| EP_lower si : SignedInteger si -> ExponentPartOpt (101%N :: si)
| EP_upper si : SignedInteger si -> ExponentPartOpt (69%N :: si).

Inductive StrUnsignedDecimalLiteral : jsstring -> Prop :=
| SU_infinity : StrUnsignedDecimalLiteral INFINITY_WORD
| SU_int_dot i e :
    DecimalDigits i -> ExponentPartOpt e ->
    StrUnsignedDecimalLiteral (i ++ 46%N :: e)
| SU_int_dot_frac i f e :
    DecimalDigits i -> DecimalDigits f -> ExponentPartOpt e ->
    StrUnsignedDecimalLiteral (i ++ 46%N :: f ++ e)
| SU_dot_frac f e :
    DecimalDigits f -> ExponentPartOpt e ->
    StrUnsignedDecimalLiteral (46%N :: f ++ e)
| SU_int i e :
    DecimalDigits i -> ExponentPartOpt e ->
    StrUnsignedDecimalLiteral (i ++ e).

Inductive StrDecimalLiteral : jsstring -> Prop :=
| SD_plain u : StrUnsignedDecimalLiteral u -> StrDecimalLiteral u
| SD_plus u : StrUnsignedDecimalLiteral u -> StrDecimalLiteral (43%N :: u)
| SD_minus u : StrUnsignedDecimalLiteral u -> StrDecimalLiteral (45%N :: u).

(** The mathematical value of a literal, after ECMAScript's rules for MV.
    The MV of a run of digits is defined from its last digit: the MV of
    the digits before it, times ten, plus the MV of that digit. *)
Definition digitMV (c : N) : N := (c - 48)%N.

Fixpoint digitsMV_from_last (reversed : jsstring) : N :=
  match reversed with
  | [] => 0%N
  | d :: before => (digitsMV_from_last before * 10 + digitMV d)%N
  end.

Definition digitsMV (ds : jsstring) : N := digitsMV_from_last (rev ds).

(** The MV of a literal: an infinity, or [mant * 10^exp10]. *)
Inductive mathValue : Type :=
| MVInfinity
| MVDecimal (mant : N) (exp10 : Z).

(** Where a literal ends: after the word [Infinity], after the digits of
    an integer, after the dot or the digits of a fraction, or after the
    digits of an exponent. *)
Inductive literalEnd : Type :=
| AfterInfinity
| AfterInteger
| AfterFraction
| AfterExponent.

Definition endWith (hasExponent : bool) (otherwise : literalEnd)
  : literalEnd :=
  if hasExponent then AfterExponent else otherwise.

Inductive SignedIntegerMV : jsstring -> Z -> Prop :=
| SIV_plain ds : DecimalDigits ds -> SignedIntegerMV ds (Z.of_N (digitsMV ds))
| SIV_plus ds :
    DecimalDigits ds -> SignedIntegerMV (43%N :: ds) (Z.of_N (digitsMV ds))
| SIV_minus ds :
    DecimalDigits ds ->
    SignedIntegerMV (45%N :: ds) (- Z.of_N (digitsMV ds))%Z.

(** An optional exponent part, its value (0 when absent) and whether it is
    present. *)
Inductive ExponentPartOptMV : jsstring -> Z -> bool -> Prop :=
| EPV_none : ExponentPartOptMV [] 0%Z false
| EPV_lower si z : SignedIntegerMV si z -> ExponentPartOptMV (101%N :: si) z true
| EPV_upper si z : SignedIntegerMV si z -> ExponentPartOptMV (69%N :: si) z true.

Inductive StrUnsignedDecimalLiteralMV
  : jsstring -> mathValue -> literalEnd -> Prop :=
| SUV_infinity :
    StrUnsignedDecimalLiteralMV INFINITY_WORD MVInfinity AfterInfinity
| SUV_int_dot i e z x :
    DecimalDigits i -> ExponentPartOptMV e z x ->
    StrUnsignedDecimalLiteralMV (i ++ 46%N :: e)
      (MVDecimal (digitsMV i) z) (endWith x AfterFraction)
| SUV_int_dot_frac i f e z x :
    DecimalDigits i -> DecimalDigits f -> ExponentPartOptMV e z x ->
    StrUnsignedDecimalLiteralMV (i ++ 46%N :: f ++ e)
      (MVDecimal (digitsMV i * 10 ^ N.of_nat (length f) + digitsMV f)%N
         (z - Z.of_nat (length f))%Z)
      (endWith x AfterFraction)
| SUV_dot_frac f e z x :
    DecimalDigits f -> ExponentPartOptMV e z x ->
    StrUnsignedDecimalLiteralMV (46%N :: f ++ e)
      (MVDecimal (digitsMV f) (z - Z.of_nat (length f))%Z)
      (endWith x AfterFraction)
| SUV_int i e z x :
    DecimalDigits i -> ExponentPartOptMV e z x ->
    StrUnsignedDecimalLiteralMV (i ++ e)
      (MVDecimal (digitsMV i) z) (endWith x AfterInteger).

(** A literal, its sign, the MV of its unsigned part and where it ends. *)
Inductive StrDecimalLiteralMV
  : jsstring -> bool -> mathValue -> literalEnd -> Prop :=
| SDV_plain u mv en :
    StrUnsignedDecimalLiteralMV u mv en -> StrDecimalLiteralMV u false mv en
| SDV_plus u mv en :
    StrUnsignedDecimalLiteralMV u mv en ->
    StrDecimalLiteralMV (43%N :: u) false mv en
| SDV_minus u mv en :
    StrUnsignedDecimalLiteralMV u mv en ->
    StrDecimalLiteralMV (45%N :: u) true mv en.

(** The Number value of a signed MV. *)
Definition numberOfMV (neg : bool) (mv : mathValue) : number :=
  match mv with
  | MVInfinity => Infinity neg
  | MVDecimal mant exp10 => roundDecimal neg mant exp10
  end.

Definition startsWithDigit (rest : jsstring) : bool :=
  match rest with
  | c :: _ => isDigit c
  | [] => false
  end.

Definition startsWithDot (rest : jsstring) : bool :=
  match rest with
  | c :: _ => (c =? 46)%N
  | [] => false
  end.

(** [e] or [E], then a digit, or a sign and a digit. *)
Definition startsWithExponent (rest : jsstring) : bool :=
  match rest with
  | c :: sg :: after =>
      ((c =? 101)%N || (c =? 69)%N)
      && (isDigit sg
          || (((sg =? 43)%N || (sg =? 45)%N) && startsWithDigit after))
  | _ => false
  end.

(** Whether the text [rest] that follows a literal would make a longer
    literal with it: a further digit; after an integer or a fraction, an
    exponent part; after an integer, a dot. *)
Definition canContinue (en : literalEnd) (rest : jsstring) : bool :=
  match en with
  | AfterInfinity => false
  | AfterInteger =>
      startsWithDigit rest || startsWithDot rest || startsWithExponent rest
  | AfterFraction => startsWithDigit rest || startsWithExponent rest
  | AfterExponent => startsWithDigit rest
  end.

(** A value of the Standard Library's specification of IEEE 754 floats,
    at precision 53, as a Number. *)
Definition ofSpecFloat (x : spec_float) : number :=
  match x with
  | S754_zero neg => Finite neg 0 0
  | S754_infinity neg => Infinity neg
  | S754_nan => NaN
  | S754_finite neg m e => Finite neg (Npos m) e
  end.

(** The Number value of a decimal once more, by the correctly rounded
    division [SFdiv] of the Standard Library at precision 53 and maximal
    exponent 1024: a reference for [roundDecimal]. *)
Definition roundDecimalSF (neg : bool) (mant : N) (exp10 : Z) : number :=
  match mant with
  | N0 => Finite neg 0 0
  | Npos m =>
      ofSpecFloat
        (if (0 <=? exp10)%Z then
           SFdiv 53 1024
             (S754_finite neg (m * Z.to_pos (10 ^ exp10)) 0%Z)
             (S754_finite false 1 0%Z)
         else
           SFdiv 53 1024 (S754_finite neg m 0%Z)
             (S754_finite false (Z.to_pos (10 ^ (- exp10))) 0%Z))
  end.

Definition number_eqb (x y : number) : bool :=
  match x, y with
  | NaN, NaN => true
  | Infinity a, Infinity b => Bool.eqb a b
  | Finite a m e, Finite b m' e' => Bool.eqb a b && (m =? m')%N && (e =? e')%Z
  | _, _ => false
  end.

(** Whether the two roundings agree on [mant * 10^exp10] for every given
    mantissa and every exponent from [low] upwards. *)
Definition roundingsAgree (mants : list N) (low : Z) (count : nat) : bool :=
  forallb
    (fun mant =>
       forallb
         (fun k =>
            let exp10 := (low + Z.of_nat k)%Z in
            number_eqb (roundDecimal false mant exp10)
              (roundDecimalSF false mant exp10))
         (seq 0 count))
    mants.

(** The exact value of a finite Number, as a fraction [(numerator,
    denominator)] in lowest terms with the sign on the numerator. *)
Definition exactValue (x : number) : option (Z * Z) :=
  match x with
  | Finite neg m e =>
      let num := if (0 <=? e)%Z then (Z.of_N m * 2 ^ e)%Z else Z.of_N m in
      let den := if (0 <=? e)%Z then 1%Z else (2 ^ (- e))%Z in
      let g := Z.gcd num den in
      Some ((if neg then - (num / g) else num / g)%Z, (den / g)%Z)
  | _ => None
  end.

(** A rejection met by [updateDatabaseProperties] started in state [r]:
    by the first [retrieve], by the [update], or by the last [retrieve]. *)
Definition schemaSyncRejects {env : Environment} (properties : Schema.t)
    (r : Remote) (e : error) : Prop :=
  match retrieve r with
  | (Rejected e', _) => e' = e
  | (Resolved _, r1) =>
      match update properties r1 with
      | (Rejected e', _) => e' = e
      | (Resolved _, r2) => (retrieve r2).1 = Rejected e
      end
  end.

(** A small environment to run the script on examples: the remote state is
    the list of pages created so far; [pages.create] rejects a page whose
    name is ['reject'], and the schema calls reject when [schemaOk] is
    false; a date text is valid when it starts with a digit. *)
Definition demoError : error :=
  {| message := lit "validation_error"; body := Some (lit "{}") |}.

Definition demoEnv (schemaOk : bool) : Environment :=
  {| Remote := list Page.t;
     retrieve := fun r =>
       (if schemaOk then Resolved (mkDatabase [lit "Name"])
        else Rejected demoError, r);
     update := fun _ r => (Resolved tt, r);
     create := fun page r =>
       if jsstring_eqb (Page.Name page) (lit "reject")
       then (Rejected demoError, r)
       else (Resolved tt, r ++ [page]);
     DateValue := jsstring;
     Date_parse := fun s =>
       match s with
       | c :: _ => if isDigit c then Some s else None
       | [] => None
       end;
     toISOString := fun d => d;
     resolve := fun path => path;
     existsSync := fun path => jsstring_eqb path (lit "bill.csv");
     readFileSync := fun _ =>
       Resolved (lit "微信支付账单明细
交易时间,交易类型,交易对方,商品,收/支,金额,支付方式
2024-01-01 10:00:00,餐饮美食,测试商户,测试商品,支出,¥25.50,零钱
");
     JSON_stringify := fun b => b |}.

(** The example environment with a file of the given content. *)
Definition fileEnv (csvContent : jsstring) : Environment :=
  {| Remote := list Page.t;
     retrieve := @retrieve (demoEnv true);
     update := @update (demoEnv true);
     create := @create (demoEnv true);
     DateValue := jsstring;
     Date_parse := @Date_parse (demoEnv true);
     toISOString := fun d => d;
     resolve := fun path => path;
     existsSync := fun _ => true;
     readFileSync := fun _ => Resolved csvContent;
     JSON_stringify := fun b => b |}.

(** The client calls of a trace, in order, without the console lines. *)
Fixpoint remoteCalls (evs : list event) : list event :=
  match evs with
  | [] => []
  | ConsoleLog _ :: rest => remoteCalls rest
  | ConsoleError _ :: rest => remoteCalls rest
  | ev :: rest => ev :: remoteCalls rest
  end.

(** Number of occurrences of a code unit in a string. *)
Definition countUnit (u : N) (s : jsstring) : nat :=
  length (List.filter (N.eqb u) s).

(** A line that passes the two guards of the import loop: not blank, and
    with a timestamp column and an amount column that are both present. *)
Definition isCandidate (raw : jsstring) : bool :=
  negb (bool_decide (trim raw = []))
  && truthy (parseColumns (trim raw) !! 0%nat)
  && truthy (parseColumns (trim raw) !! 5%nat).

(** The text starts with a decimal literal. *)
Definition hasLiteralPrefix (s : jsstring) : Prop :=
  exists p rest, s = p ++ rest /\ StrDecimalLiteral p.

(** Decide comparisons of code units against constants, given bounds in
    the context. *)
Ltac eqb_false :=
  repeat match goal with
         | |- context [(?a =? ?b)%N] => destruct (N.eqb_spec a b); [lia|]
         | |- context [(?a <=? ?b)%N] => destruct (N.leb_spec a b); [lia|]
         end.

(** * Properties *)

(** ** Strings *)

Example lit_ascii : lit "a,b" = [97; 44; 98]%N.
Proof. reflexivity. Qed.

Example lit_cjk : lit "其他" = [0x5176; 0x4ED6]%N.
Proof. reflexivity. Qed.

Example lit_astral : lit "🎉" = [0xD83C; 0xDF89]%N.
Proof. reflexivity. Qed.

Example header_marker_units :
  HEADER_MARKER
  = [0x4EA4; 0x6613; 0x65F6; 0x95F4; 0x2C; 0x4EA4; 0x6613; 0x7C7B; 0x578B]%N.
Proof. reflexivity. Qed.

Example split_empty : split COMMA [] = [[]].
Proof. reflexivity. Qed.

Example split_three : split COMMA (lit "a,,b") = [lit "a"; []; lit "b"].
Proof. reflexivity. Qed.

Example trim_both : trim (lit "  a b" ++ [13%N]) = lit "a b".
Proof. reflexivity. Qed.

Lemma findIndex_None {A : Type} (p : A -> bool) (l : list A) :
  (forall x, x ∈ l -> p x = false) -> findIndex p l = None.
Proof.
  induction l as [|x l IH]; intros Hall; [reflexivity|].
  simpl. rewrite (Hall x) by (left).
  rewrite IH; [reflexivity|].
  intros y Hy. apply Hall. now right.
Qed.

Lemma jsstring_eqb_true (a b : jsstring) : jsstring_eqb a b = true <-> a = b.
Proof. unfold jsstring_eqb. apply bool_decide_eq_true. Qed.

Lemma existsb_jsstring_eqb (x : jsstring) (s : list jsstring) :
  existsb (jsstring_eqb x) s = true <-> x ∈ s.
Proof.
  rewrite existsb_exists. split.
  - intros (y & Hy & Heq). apply jsstring_eqb_true in Heq. subst y.
    now apply list_elem_of_In.
  - intros Hin. exists x. split; [now apply list_elem_of_In|].
    now apply jsstring_eqb_true.
Qed.

(** ** [Set] as an insertion-ordered list *)

Lemma Set_add_elem (x : jsstring) (s : list jsstring) : x ∈ Set_add x s.
Proof.
  unfold Set_add. destruct (existsb (jsstring_eqb x) s) eqn:E.
  - now apply existsb_jsstring_eqb.
  - apply elem_of_app. right. now left.
Qed.

Lemma Set_add_mono (x y : jsstring) (s : list jsstring) :
  y ∈ s -> y ∈ Set_add x s.
Proof.
  intros Hy. unfold Set_add. destruct (existsb (jsstring_eqb x) s); [done|].
  apply elem_of_app. now left.
Qed.

Lemma Set_add_NoDup (x : jsstring) (s : list jsstring) :
  NoDup s -> NoDup (Set_add x s).
Proof.
  intros Hs. unfold Set_add. destruct (existsb (jsstring_eqb x) s) eqn:E; [done|].
  apply NoDup_app. split; [done|]. split.
  - intros y Hy Hy'. apply list_elem_of_singleton in Hy'. subst y.
    apply existsb_jsstring_eqb in Hy. congruence.
  - apply NoDup_singleton.
Qed.

(** ** Schema inference *)

Lemma scanLine_mono_1 acc raw (x : jsstring) :
  x ∈ acc.1 -> x ∈ (scanLine acc raw).1.
Proof.
  intros Hx. unfold scanLine. case_bool_decide; [done|]. simpl.
  destruct (truthy _); [now apply Set_add_mono | done].
Qed.

Lemma scanLine_mono_2 acc raw (x : jsstring) :
  x ∈ acc.2 -> x ∈ (scanLine acc raw).2.
Proof.
  intros Hx. unfold scanLine. case_bool_decide; [done|]. simpl.
  destruct (truthy (parseColumns (trim raw) !! 6%nat)); [now apply Set_add_mono | done].
Qed.

Lemma scanLine_NoDup acc raw :
  NoDup acc.1 /\ NoDup acc.2 ->
  NoDup (scanLine acc raw).1 /\ NoDup (scanLine acc raw).2.
Proof.
  intros [H1 H2]. unfold scanLine. case_bool_decide; [done|]. simpl.
  split.
  - destruct (truthy _); [now apply Set_add_NoDup | done].
  - destruct (truthy (parseColumns (trim raw) !! 6%nat));
      [now apply Set_add_NoDup | done].
Qed.

Lemma scanLine_adds_type acc raw (type : jsstring) :
  trim raw <> [] ->
  parseColumns (trim raw) !! 1%nat = Some type -> type <> [] ->
  type ∈ (scanLine acc raw).1.
Proof.
  intros Hne Hcol Hty. unfold scanLine.
  rewrite bool_decide_eq_false_2 by done. simpl.
  rewrite Hcol. destruct type as [|c t]; [done|]. simpl.
  apply Set_add_elem.
Qed.

Lemma scanLine_adds_paymentMethod acc raw (pm : jsstring) :
  trim raw <> [] ->
  parseColumns (trim raw) !! 6%nat = Some pm -> pm <> [] ->
  pm ∈ (scanLine acc raw).2.
Proof.
  intros Hne Hcol Hpm. unfold scanLine.
  rewrite bool_decide_eq_false_2 by done. simpl.
  rewrite Hcol. destruct pm as [|c t]; [done|]. simpl.
  apply Set_add_elem.
Qed.

Lemma fold_scanLine_mono lines acc (x : jsstring) :
  (x ∈ acc.1 -> x ∈ (fold_left scanLine lines acc).1)
  /\ (x ∈ acc.2 -> x ∈ (fold_left scanLine lines acc).2).
Proof.
  revert acc. induction lines as [|raw lines IH]; intros acc; [done|].
  simpl. split; intros Hx.
  - apply IH. now apply scanLine_mono_1.
  - apply IH. now apply scanLine_mono_2.
Qed.

Lemma fold_scanLine_NoDup lines acc :
  NoDup acc.1 /\ NoDup acc.2 ->
  NoDup (fold_left scanLine lines acc).1
  /\ NoDup (fold_left scanLine lines acc).2.
Proof.
  revert acc. induction lines as [|raw lines IH]; intros acc Hacc; [done|].
  simpl. apply IH. now apply scanLine_NoDup.
Qed.

(** Every line of the scanned block contributes, wherever it stands. *)
Lemma fold_scanLine_collects lines acc raw :
  raw ∈ lines -> trim raw <> [] ->
  (forall type, parseColumns (trim raw) !! 1%nat = Some type -> type <> [] ->
                type ∈ (fold_left scanLine lines acc).1)
  /\ (forall pm, parseColumns (trim raw) !! 6%nat = Some pm -> pm <> [] ->
                 pm ∈ (fold_left scanLine lines acc).2).
Proof.
  revert acc. induction lines as [|l lines IH]; intros acc Hin Hne.
  - now apply elem_of_nil in Hin.
  - apply elem_of_cons in Hin as [->|Hin].
    + simpl. split; intros v Hv Hv'.
      * apply fold_scanLine_mono. now apply scanLine_adds_type.
      * apply fold_scanLine_mono. now apply scanLine_adds_paymentMethod.
    + simpl. now apply IH.
Qed.

Lemma extractUniqueValues_NoDup csv :
  NoDup (categories (extractUniqueValues csv))
  /\ NoDup (paymentMethods (extractUniqueValues csv)).
Proof.
  unfold extractUniqueValues.
  destruct (findIndex isHeaderLine (split NEWLINE csv)) as [k|]; simpl.
  - apply fold_scanLine_NoDup. simpl. split; apply NoDup_nil_2.
  - split; apply NoDup_nil_2.
Qed.

(** C7. A file text without any line containing the header marker
    ['交易时间,交易类型'] yields an empty category collection and an empty
    payment-method collection. *)
Theorem extractUniqueValues_no_header (csvContent : jsstring) :
  (forall line, line ∈ split NEWLINE csvContent ->
                includes line HEADER_MARKER = false) ->
  extractUniqueValues csvContent
  = {| categories := []; paymentMethods := [] |}.
Proof.
  intros Hno. unfold extractUniqueValues.
  now rewrite (findIndex_None isHeaderLine _ Hno).
Qed.

Lemma extractUniqueValues_no_header_witness :
  extractUniqueValues (lit "微信支付账单明细
2024-01-01 10:00:00,餐饮美食,商户,商品,支出,¥25.50,零钱")
  = {| categories := []; paymentMethods := [] |}.
Proof.
  apply extractUniqueValues_no_header.
  intros line Hin. vm_compute in Hin.
  repeat (apply elem_of_cons in Hin as [->|Hin]; [reflexivity|]).
  now apply elem_of_nil in Hin.
Defined.

(** C8. Schema inference does not depend on validation: every non-empty
    line after the header adds its non-empty category column to the
    categories and its non-empty payment-method column to the payment
    methods, with no condition on its timestamp or amount columns. *)
Theorem extractUniqueValues_collects_every_row
    (csvContent : jsstring) (dataStartIndex i : nat) (raw : jsstring) :
  findIndex isHeaderLine (split NEWLINE csvContent) = Some dataStartIndex ->
  (dataStartIndex < i)%nat ->
  split NEWLINE csvContent !! i = Some raw ->
  trim raw <> [] ->
  (forall type,
      parseColumns (trim raw) !! 1%nat = Some type -> type <> [] ->
      type ∈ categories (extractUniqueValues csvContent))
  /\ (forall paymentMethod,
         parseColumns (trim raw) !! 6%nat = Some paymentMethod ->
         paymentMethod <> [] ->
         paymentMethod ∈ paymentMethods (extractUniqueValues csvContent)).
Proof.
  intros Hidx Hlt Hraw Hne. unfold extractUniqueValues. rewrite Hidx. simpl.
  apply fold_scanLine_collects; [|exact Hne].
  apply list_elem_of_lookup. exists (i - S dataStartIndex)%nat.
  rewrite lookup_drop. replace (S dataStartIndex + (i - S dataStartIndex))%nat
    with i by lia. exact Hraw.
Qed.

Lemma extractUniqueValues_collects_every_row_witness :
  let csv := lit "交易时间,交易类型,交易对方,商品,收/支,金额,支付方式
,交通出行,商户,商品,支出,abc,零钱" in
  lit "交通出行" ∈ categories (extractUniqueValues csv)
  /\ lit "零钱" ∈ paymentMethods (extractUniqueValues csv).
Proof.
  intros csv.
  assert (Hne : trim (lit ",交通出行,商户,商品,支出,abc,零钱") <> [])
    by (vm_compute; discriminate).
  destruct (extractUniqueValues_collects_every_row csv 0 1
              (lit ",交通出行,商户,商品,支出,abc,零钱")
              ltac:(vm_compute; reflexivity) ltac:(lia)
              ltac:(vm_compute; reflexivity) Hne) as [Hc Hp].
  split.
  - apply Hc; [vm_compute; reflexivity | vm_compute; discriminate].
  - apply Hp; [vm_compute; reflexivity | vm_compute; discriminate].
Defined.

(** ** The schema definition *)

Lemma map_name_mkOption (l : list jsstring) : map name (map mkOption l) = l.
Proof. induction l as [|x l IH]; simpl; [reflexivity | now rewrite IH]. Qed.

Lemma NoDup_snoc_iff (l : list jsstring) (x : jsstring) :
  NoDup (l ++ [x]) <-> NoDup l /\ x ∉ l.
Proof.
  rewrite NoDup_app. split.
  - intros (Hl & Hdisj & _). split; [done|].
    intros Hx. apply (Hdisj x Hx). now left.
  - intros [Hl Hx]. split; [done|]. split; [|apply NoDup_singleton].
    intros y Hy Hy'. apply list_elem_of_singleton in Hy'. now subst y.
Qed.

(** C1 (as amended). The category and payment-method select fields list the
    inferred values followed by the fixed fallback option, last ('其他',
    '未知'). The list is free of duplicates exactly when the inferred values
    are pairwise distinct and do not contain the fallback label; the values
    inferred by [extractUniqueValues] are always pairwise distinct. *)
Theorem getDatabaseProperties_options_fallback_last :
  (forall uniqueValues : UniqueValues,
      let cats :=
        optionNames (Schema.Category (getDatabaseProperties uniqueValues)) in
      let pms :=
        optionNames (Schema.Payment_Method (getDatabaseProperties uniqueValues)) in
      cats = categories uniqueValues ++ [lit "其他"]
      /\ pms = paymentMethods uniqueValues ++ [lit "未知"]
      /\ (NoDup cats <->
          NoDup (categories uniqueValues)
          /\ lit "其他" ∉ categories uniqueValues)
      /\ (NoDup pms <->
          NoDup (paymentMethods uniqueValues)
          /\ lit "未知" ∉ paymentMethods uniqueValues))
  /\ (forall csvContent : jsstring,
         NoDup (categories (extractUniqueValues csvContent))
         /\ NoDup (paymentMethods (extractUniqueValues csvContent))).
Proof.
  split; [|apply extractUniqueValues_NoDup].
  intros uv cats pms. subst cats pms. simpl.
  rewrite !map_app, !map_name_mkOption. simpl.
  change FALLBACK_CATEGORY with (lit "其他").
  change FALLBACK_PAYMENT_METHOD with (lit "未知").
  split; [reflexivity|]. split; [reflexivity|].
  split; apply NoDup_snoc_iff.
Qed.

(** C1, the claim as stated fails: a bill with a row of category '其他'
    gives a schema whose category options list '其他' twice. *)
Lemma getDatabaseProperties_duplicate_fallback :
  let csv := lit "交易时间,交易类型,交易对方,商品,收/支,金额,支付方式
2024-01-01 10:00:00,其他,商户,商品,支出,¥25.50,零钱" in
  optionNames (Schema.Category (getDatabaseProperties (extractUniqueValues csv)))
  = [lit "其他"; lit "其他"]
  /\ ~ NoDup (optionNames
                (Schema.Category
                   (getDatabaseProperties (extractUniqueValues csv)))).
Proof.
  intros csv.
  assert (E : optionNames
                (Schema.Category
                   (getDatabaseProperties (extractUniqueValues csv)))
              = [lit "其他"; lit "其他"]) by (vm_compute; reflexivity).
  split; [exact E|]. rewrite E. intros Hnd.
  apply NoDup_cons in Hnd as [Hnot _]. apply Hnot. now left.
Qed.

(** ** Cleaning a column *)

Lemma dropTrailingQuote_cons (c : N) (r : jsstring) :
  r <> [] -> dropTrailingQuote (c :: r) = c :: dropTrailingQuote r.
Proof.
  intros Hr. unfold dropTrailingQuote. simpl.
  destruct (rev r) as [|x t] eqn:E.
  - apply (f_equal (@rev N)) in E. rewrite rev_involutive in E. done.
  - simpl. destruct (x =? QUOTE)%N.
    + now rewrite rev_app_distr.
    + change (x :: t ++ [c]) with ((x :: t) ++ [c]). now rewrite rev_app_distr.
Qed.

Lemma replaceQuotesFrom_false (s : jsstring) :
  replaceQuotesFrom false s = dropTrailingQuote s.
Proof.
  induction s as [|c r IH]; [reflexivity|].
  simpl. case_bool_decide as Hr.
  - subst r. simpl. unfold dropTrailingQuote. simpl.
    rewrite andb_true_r. now destruct (c =? QUOTE)%N.
  - rewrite andb_false_r, IH. now rewrite dropTrailingQuote_cons.
Qed.

Lemma replaceQuotes_spec (s : jsstring) :
  replaceQuotes s = dropTrailingQuote (dropLeadingQuote s).
Proof.
  unfold replaceQuotes. destruct s as [|c r]; [reflexivity|].
  simpl. rewrite andb_true_r. destruct (c =? QUOTE)%N eqn:E.
  - apply replaceQuotesFrom_false.
  - rewrite replaceQuotesFrom_false. destruct r as [|c' r'].
    + unfold dropTrailingQuote. simpl. now rewrite E.
    + symmetry. now apply dropTrailingQuote_cons.
Qed.

(** C2 (as amended). A field is trimmed of surrounding white space; then a
    leading quote is removed if there is one, and a trailing quote is
    removed if there is one, each without regard to the other. *)
Theorem cleanColumn_strips_quotes_independently (col : jsstring) :
  cleanColumn col = dropTrailingQuote (dropLeadingQuote (trim col)).
Proof. unfold cleanColumn. apply replaceQuotes_spec. Qed.

(** C2, the claim as stated fails: a field with only a leading quote, or
    only a trailing quote, loses it, where the specification keeps it. *)
Lemma cleanColumn_unbalanced_quote_removed :
  cleanColumn (QUOTE :: lit "abc") = lit "abc"
  /\ cleanColumn_spec (QUOTE :: lit "abc") = QUOTE :: lit "abc"
  /\ cleanColumn (lit "abc" ++ [QUOTE]) = lit "abc"
  /\ cleanColumn_spec (lit "abc" ++ [QUOTE]) = lit "abc" ++ [QUOTE].
Proof. repeat split; reflexivity. Qed.

Example cleanColumn_balanced :
  cleanColumn (lit " " ++ QUOTE :: lit "测试商户" ++ [QUOTE; 13%N])
  = lit "测试商户".
Proof. reflexivity. Qed.

Example cleanColumn_inner_quote_kept :
  cleanColumn (lit "a" ++ QUOTE :: lit "b") = lit "a" ++ QUOTE :: lit "b".
Proof. reflexivity. Qed.

Example cleanColumn_lone_quote : cleanColumn [QUOTE] = [].
Proof. reflexivity. Qed.

(** ** Amount normalisation *)

Lemma normalizeAmount_idempotent (x : jsstring) :
  normalizeAmount (normalizeAmount x) = normalizeAmount x.
Proof.
  unfold normalizeAmount. induction x as [|c x IH]; [reflexivity|].
  simpl. destruct (isAmountNoise c) eqn:E; simpl; [exact IH|].
  rewrite E. simpl. now rewrite IH.
Qed.

(** C9. On a text that contains neither '¥', nor white space, nor a comma,
    normalisation changes nothing, and so applying it twice is the same as
    applying it once. *)
Theorem normalizeAmount_clean (x : jsstring) :
  forallb (fun c => negb (isAmountNoise c)) x = true ->
  normalizeAmount (normalizeAmount x) = normalizeAmount x
  /\ normalizeAmount x = x.
Proof.
  intros Hclean. split; [apply normalizeAmount_idempotent|].
  unfold normalizeAmount. induction x as [|c x IH]; [reflexivity|].
  simpl in *. apply andb_true_iff in Hclean as [Hc Hx].
  rewrite Hc. now rewrite IH.
Qed.

Lemma normalizeAmount_clean_witness :
  normalizeAmount (normalizeAmount (lit "1200.00"))
  = normalizeAmount (lit "1200.00")
  /\ normalizeAmount (lit "1200.00") = lit "1200.00".
Proof. apply normalizeAmount_clean. reflexivity. Defined.

Example normalizeAmount_scenario2 :
  normalizeAmount (lit "¥1,200.00") = lit "1200.00"
  /\ exactValue (parseFloat (normalizeAmount (lit "¥1,200.00")))
     = Some (1200, 1)%Z.
Proof. split; vm_compute; reflexivity. Qed.

(** ** [parseFloat] *)

Example parseFloat_plain :
  parseFloat (lit "25.50") = Finite false 7177611906121728 (-48)
  /\ exactValue (parseFloat (lit "25.50")) = Some (51, 2)%Z.
Proof. split; vm_compute; reflexivity. Qed.
Example parseFloat_same_number :
  parseFloat (lit "25.5") = parseFloat (lit "25.50").
Proof. vm_compute. reflexivity. Qed.
Example parseFloat_abc : parseFloat (lit "abc") = NaN.
Proof. reflexivity. Qed.
Example parseFloat_empty : parseFloat [] = NaN.
Proof. reflexivity. Qed.
Example parseFloat_exp :
  exactValue (parseFloat (lit "-1.5e3x")) = Some (-1500, 1)%Z.
Proof. vm_compute. reflexivity. Qed.
Example parseFloat_exp_cut :
  exactValue (parseFloat (lit "1e+")) = Some (1, 1)%Z.
Proof. vm_compute. reflexivity. Qed.
Example parseFloat_dot : parseFloat (lit ".") = NaN.
Proof. reflexivity. Qed.
Example parseFloat_dot_frac :
  parseFloat (lit ".5e-2") = Finite false 5764607523034235 (-60).
Proof. vm_compute. reflexivity. Qed.
Example parseFloat_int_dot :
  exactValue (parseFloat (lit "1.e2")) = Some (100, 1)%Z.
Proof. vm_compute. reflexivity. Qed.
Example parseFloat_infinity : parseFloat (lit "-Infinityx") = Infinity true.
Proof. reflexivity. Qed.
Example parseFloat_suffix :
  exactValue (parseFloat (lit "25.50元")) = Some (51, 2)%Z.
Proof. vm_compute. reflexivity. Qed.
Example parseFloat_letters_and_digits :
  exactValue (parseFloat (lit "12.50EUR2024")) = Some (25, 2)%Z.
Proof. vm_compute. reflexivity. Qed.
Example parseFloat_tenth :
  parseFloat (lit "0.1") = Finite false 7205759403792794 (-56).
Proof. vm_compute. reflexivity. Qed.
Example parseFloat_overflow : parseFloat (lit "1e400") = Infinity false.
Proof. vm_compute. reflexivity. Qed.
Example parseFloat_underflow : parseFloat (lit "1e-400") = Finite false 0 0.
Proof. vm_compute. reflexivity. Qed.
Example parseFloat_smallest : parseFloat (lit "5e-324") = Finite false 1 (-1074).
Proof. vm_compute. reflexivity. Qed.
Example parseFloat_tie_to_even :
  parseFloat (lit "9007199254740993") = parseFloat (lit "9007199254740992").
Proof. vm_compute. reflexivity. Qed.
Example parseFloat_negative_zero : parseFloat (lit "-0") = Finite true 0 0.
Proof. vm_compute. reflexivity. Qed.

(** The rounding agrees with the correctly rounded division of the
    Standard Library's specification of IEEE 754 on these decimals. *)
Example roundDecimal_agrees_with_SFdiv :
  roundDecimal false 2550 (-2)
  = ofSpecFloat (SFdiv 53 1024 (S754_finite false 2550 1%Z) (S754_finite false 200 0%Z))
  /\ roundDecimal false 1 (-1)
     = ofSpecFloat (SFdiv 53 1024 (S754_finite false 1 0%Z) (S754_finite false 10 0%Z))
  /\ roundDecimal true 24703282292062328 (-340)
     = ofSpecFloat (SFdiv 53 1024 (S754_finite true 24703282292062328 0%Z)
                      (S754_finite false (10 ^ 340) 0%Z))
  /\ roundDecimal false 17976931348623158 292
     = ofSpecFloat (SFdiv 53 1024 (S754_finite false (17976931348623158 * 10 ^ 292) 0%Z)
                      (S754_finite false 1 0%Z))
  /\ roundDecimal false 17976931348623159 292
     = ofSpecFloat (SFdiv 53 1024 (S754_finite false (17976931348623159 * 10 ^ 292) 0%Z)
                      (S754_finite false 1 0%Z)).
Proof.
  split; [vm_compute; reflexivity|]. split; [vm_compute; reflexivity|].
  split; [vm_compute; reflexivity|]. split; vm_compute; reflexivity.
Qed.

(** The two roundings agree on every decimal with a mantissa up to 40 and
    an exponent from -12 to 12, and at the edges of the format: around the
    smallest subnormal value and half of it, the smallest normal value,
    the largest finite value and the overflow threshold, and ties at
    2^53. *)
Example roundDecimal_agrees_with_SFdiv_on_grid :
  roundingsAgree (List.map N.of_nat (seq 0 41)) (-12) 25 = true
  /\ roundingsAgree
       [5; 22250738585072014; 22250738585072011; 24703282292062327;
        24703282292062328]%N (-341) 3
     = true
  /\ roundingsAgree
       [17976931348623157; 17976931348623158; 17976931348623159]%N 291 3
     = true
  /\ roundingsAgree [9007199254740993; 9007199254740995]%N (-2) 5 = true.
Proof.
  split; [vm_compute; reflexivity|]. split; [vm_compute; reflexivity|].
  split; vm_compute; reflexivity.
Qed.

Lemma roundDecimal_not_NaN (neg : bool) (mant : N) (exp10 : Z) :
  isNaN (roundDecimal neg mant exp10) = false.
Proof.
  unfold roundDecimal.
  destruct (if (mant =? 0)%N then _ else _) as [[m e]|]; reflexivity.
Qed.

Lemma takeWhile_digits_app (ds rest : jsstring) :
  forallb isDigit ds = true ->
  takeWhile isDigit (ds ++ rest) = ds ++ takeWhile isDigit rest.
Proof.
  induction ds as [|d ds IH]; intros H; [reflexivity|].
  simpl in *. apply andb_true_iff in H as [Hd Hds].
  rewrite Hd. now rewrite IH.
Qed.

Lemma dropWhile_digits_app (ds rest : jsstring) :
  forallb isDigit ds = true ->
  dropWhile isDigit (ds ++ rest) = dropWhile isDigit rest.
Proof.
  induction ds as [|d ds IH]; intros H; [reflexivity|].
  simpl in *. apply andb_true_iff in H as [Hd Hds].
  rewrite Hd. now apply IH.
Qed.

Lemma isDigit_not_special (d : N) :
  isDigit d = true ->
  (d =? 43)%N = false /\ (d =? 45)%N = false /\ (d =? 46)%N = false
  /\ (73 =? d)%N = false.
Proof.
  unfold isDigit. rewrite andb_true_iff, N.leb_le, N.leb_le. intros [H1 H2].
  repeat split; apply N.eqb_neq; lia.
Qed.

Lemma DecimalDigits_inv (ds : jsstring) :
  DecimalDigits ds ->
  exists d ds', ds = d :: ds' /\ isDigit d = true /\ forallb isDigit ds = true.
Proof.
  intros [Hne Hall]. destruct ds as [|d ds']; [done|].
  exists d, ds'. split; [reflexivity|]. split; [|exact Hall].
  simpl in Hall. now apply andb_true_iff in Hall as [? _].
Qed.

Lemma takeWhile_digits_stop (ds rest : jsstring) :
  forallb isDigit ds = true -> takeWhile isDigit rest = [] ->
  takeWhile isDigit (ds ++ rest) = ds.
Proof.
  intros Hds Hrest. rewrite takeWhile_digits_app by exact Hds.
  rewrite Hrest. apply app_nil_r.
Qed.

Lemma startsWith_app (p rest : jsstring) : startsWith p (p ++ rest) = true.
Proof.
  induction p as [|c p IH]; [reflexivity|].
  simpl. now rewrite N.eqb_refl, IH.
Qed.

(** A literal starts with a digit, a dot or the [I] of [Infinity]: never
    with white space or a sign. *)
Lemma StrUnsignedDecimalLiteral_head (u : jsstring) :
  StrUnsignedDecimalLiteral u ->
  exists c u', u = c :: u' /\ isWhiteSpace c = false
               /\ (c =? 43)%N = false /\ (c =? 45)%N = false
               /\ (u = INFINITY_WORD \/ (73 =? c)%N = false).
Proof.
  assert (Hdig : forall d, isDigit d = true ->
            isWhiteSpace d = false /\ (d =? 43)%N = false
            /\ (d =? 45)%N = false /\ (73 =? d)%N = false).
  { intros d. unfold isDigit. rewrite andb_true_iff, N.leb_le, N.leb_le.
    intros [H1 H2]. unfold isWhiteSpace. repeat split; eqb_false; reflexivity. }
  intros Hu. destruct Hu as [|i e Hi He|i f e Hi Hf He|f e Hf He|i e Hi He].
  - eexists _, _. split; [reflexivity|]. repeat split; try reflexivity. now left.
  - destruct (DecimalDigits_inv i Hi) as (d & i' & -> & Hd & _).
    destruct (Hdig d Hd) as (? & ? & ? & ?). exists d, (i' ++ 46%N :: e). tauto.
  - destruct (DecimalDigits_inv i Hi) as (d & i' & -> & Hd & _).
    destruct (Hdig d Hd) as (? & ? & ? & ?).
    exists d, (i' ++ 46%N :: f ++ e). tauto.
  - eexists _, _. split; [reflexivity|]. repeat split; try reflexivity. now right.
  - destruct (DecimalDigits_inv i Hi) as (d & i' & -> & Hd & _).
    destruct (Hdig d Hd) as (? & ? & ? & ?). exists d, (i' ++ e). tauto.
Qed.

(** The digits read by the parser have the MV of the grammar. *)
Lemma digitsValue_snoc (ds : jsstring) (d : N) :
  digitsValue (ds ++ [d]) = (10 * digitsValue ds + (d - 48))%N.
Proof. unfold digitsValue. now rewrite fold_left_app. Qed.

Lemma digitsMV_snoc (ds : jsstring) (d : N) :
  digitsMV (ds ++ [d]) = (digitsMV ds * 10 + digitMV d)%N.
Proof. unfold digitsMV. now rewrite rev_app_distr. Qed.

Lemma digitsValue_MV (ds : jsstring) : digitsValue ds = digitsMV ds.
Proof.
  induction ds as [|d ds IH] using rev_ind; [reflexivity|].
  rewrite digitsValue_snoc, digitsMV_snoc, IH. unfold digitMV. lia.
Qed.

Lemma digitsValue_app_MV (i f : jsstring) :
  digitsValue (i ++ f)
  = (digitsMV i * 10 ^ N.of_nat (length f) + digitsMV f)%N.
Proof.
  induction f as [|d f IH] using rev_ind.
  - rewrite app_nil_r, digitsValue_MV.
    change (digitsMV []) with 0%N. change (N.of_nat (length (@nil N))) with 0%N.
    rewrite N.pow_0_r. lia.
  - rewrite app_assoc, digitsValue_snoc, IH, digitsMV_snoc, length_app.
    simpl length. rewrite Nat.add_1_r, Nat2N.inj_succ, N.pow_succ_r'.
    unfold digitMV. lia.
Qed.

Lemma takeWhile_no_digit (rest : jsstring) :
  startsWithDigit rest = false ->
  takeWhile isDigit rest = [] /\ dropWhile isDigit rest = rest.
Proof. destruct rest as [|c r]; simpl; [done|]. now intros ->. Qed.

Lemma exponentPart_absent (rest : jsstring) :
  startsWithExponent rest = false -> exponentPart rest = 0%Z.
Proof.
  destruct rest as [|c [|sg after]]; simpl; [done|now destruct (_ || _)|].
  destruct ((c =? 101)%N || (c =? 69)%N); [|done]. simpl.
  intros H. apply orb_false_iff in H as [Hsg Hsign].
  destruct (sg =? 43)%N eqn:Ep.
  - simpl in Hsign. now rewrite (proj1 (takeWhile_no_digit after Hsign)).
  - destruct (sg =? 45)%N eqn:Em.
    + simpl in Hsign. now rewrite (proj1 (takeWhile_no_digit after Hsign)).
    + now rewrite Hsg.
Qed.

(** The exponent read at the head of [e ++ rest] is the MV of [e], when
    [rest] does not go on with a digit. *)
Lemma exponentPart_present (e rest : jsstring) (z : Z) :
  ExponentPartOptMV e z true -> startsWithDigit rest = false ->
  exponentPart (e ++ rest) = z.
Proof.
  intros He Hrest. destruct (takeWhile_no_digit rest Hrest) as [Ht _].
  assert (Hsi : forall si, SignedIntegerMV si z ->
            match si ++ rest with
            | sg :: r' =>
                if (sg =? 43)%N then
                  match takeWhile isDigit r' with
                  | [] => 0%Z
                  | ds => Z.of_N (digitsValue ds)
                  end
                else if (sg =? 45)%N then
                  match takeWhile isDigit r' with
                  | [] => 0%Z
                  | ds => (- Z.of_N (digitsValue ds))%Z
                  end
                else
                  match takeWhile isDigit (si ++ rest) with
                  | [] => 0%Z
                  | ds => Z.of_N (digitsValue ds)
                  end
            | [] => 0%Z
            end = z).
  { intros si Hsi. destruct Hsi as [ds Hds|ds Hds|ds Hds];
      destruct (DecimalDigits_inv ds Hds) as (d & ds' & -> & Hd & Hall).
    - destruct (isDigit_not_special d Hd) as (Hp & Hm & _).
      change ((d :: ds') ++ rest) with (d :: (ds' ++ rest)) at 1.
      cbv iota. cbv beta. rewrite Hp, Hm.
      rewrite takeWhile_digits_stop by assumption.
      now rewrite digitsValue_MV.
    - change ((43%N :: d :: ds') ++ rest) with (43%N :: ((d :: ds') ++ rest)).
      cbv iota. cbv beta. rewrite N.eqb_refl.
      rewrite takeWhile_digits_stop by assumption.
      now rewrite digitsValue_MV.
    - change ((45%N :: d :: ds') ++ rest) with (45%N :: ((d :: ds') ++ rest)).
      cbv iota. cbv beta. change (45 =? 43)%N with false. rewrite N.eqb_refl.
      rewrite takeWhile_digits_stop by assumption.
      now rewrite digitsValue_MV. }
  inversion He as [|si z' Hs|si z' Hs]; subst; exact (Hsi si Hs).
Qed.

(** What the parser finds after the mantissa of a literal that ends as
    [endWith x otherwise], when the text cannot continue the literal. *)
Lemma after_mantissa (otherwise : literalEnd) (e rest : jsstring) (z : Z)
    (x : bool) :
  ExponentPartOptMV e z x ->
  otherwise = AfterInteger \/ otherwise = AfterFraction ->
  canContinue (endWith x otherwise) rest = false ->
  takeWhile isDigit (e ++ rest) = []
  /\ dropWhile isDigit (e ++ rest) = e ++ rest
  /\ exponentPart (e ++ rest) = z
  /\ (otherwise = AfterInteger -> startsWithDot (e ++ rest) = false).
Proof.
  intros He Hother Hstop. destruct He as [|si z Hs|si z Hs].
  - simpl in *.
    assert (Hfacts : startsWithDigit rest = false
                     /\ startsWithExponent rest = false
                     /\ (otherwise = AfterInteger -> startsWithDot rest = false)).
    { destruct Hother as [-> | ->]; simpl in Hstop.
      - apply orb_false_iff in Hstop as [Hstop He].
        apply orb_false_iff in Hstop as [Hd Hdot]. done.
      - apply orb_false_iff in Hstop as [Hd He]. done. }
    destruct Hfacts as (Hd & He & Hdot).
    destruct (takeWhile_no_digit rest Hd) as [Ht Hdr].
    now rewrite (exponentPart_absent rest He).
  - simpl in Hstop. repeat split; try reflexivity.
    now apply (exponentPart_present (101%N :: si)); [apply EPV_lower|].
  - simpl in Hstop. repeat split; try reflexivity.
    now apply (exponentPart_present (69%N :: si)); [apply EPV_upper|].
Qed.

Lemma parseDecimal_MV (neg : bool) (u rest : jsstring) (mant : N) (exp10 : Z)
    (en : literalEnd) :
  StrUnsignedDecimalLiteralMV u (MVDecimal mant exp10) en ->
  canContinue en rest = false ->
  parseDecimal neg (u ++ rest) = roundDecimal neg mant exp10.
Proof.
  intros Hu Hstop.
  inversion Hu as [|i e z x Hi He|i f e z x Hi Hf He|f e z x Hf He|i e z x Hi He];
    subst; clear Hu.
  - destruct (DecimalDigits_inv i Hi) as (d & i' & -> & Hd & Hall).
    destruct (after_mantissa AfterFraction e rest _ x He ltac:(now right) Hstop)
      as (Ht & Hdr & Hz & _).
    rewrite <- app_assoc. change ((46%N :: e) ++ rest) with (46%N :: (e ++ rest)).
    unfold parseDecimal. cbv zeta.
    rewrite takeWhile_digits_stop by (exact Hall || reflexivity).
    rewrite dropWhile_digits_app by exact Hall.
    change (dropWhile isDigit (46%N :: e ++ rest)) with (46%N :: e ++ rest).
    cbv iota. rewrite N.eqb_refl, Ht, Hdr, Hz, app_nil_r, digitsValue_MV.
    simpl length. now rewrite Z.sub_0_r.
  - destruct (DecimalDigits_inv i Hi) as (d & i' & -> & Hd & Hall).
    destruct Hf as [Hfne Hfall].
    destruct (after_mantissa AfterFraction e rest _ x He ltac:(now right) Hstop)
      as (Ht & Hdr & Hz & _).
    rewrite <- app_assoc.
    change ((46%N :: f ++ e) ++ rest) with (46%N :: ((f ++ e) ++ rest)).
    rewrite <- (app_assoc f e rest).
    unfold parseDecimal. cbv zeta.
    rewrite takeWhile_digits_stop by (exact Hall || reflexivity).
    rewrite dropWhile_digits_app by exact Hall.
    change (dropWhile isDigit (46%N :: f ++ e ++ rest))
      with (46%N :: f ++ e ++ rest).
    cbv iota. rewrite N.eqb_refl.
    rewrite (takeWhile_digits_stop f (e ++ rest) Hfall Ht).
    rewrite (dropWhile_digits_app f (e ++ rest) Hfall), Hdr, Hz.
    now rewrite digitsValue_app_MV.
  - destruct (DecimalDigits_inv f Hf) as (d & f' & -> & Hd & Hall).
    destruct (after_mantissa AfterFraction e rest _ x He ltac:(now right) Hstop)
      as (Ht & Hdr & Hz & _).
    change ((46%N :: (d :: f') ++ e) ++ rest)
      with (46%N :: ((d :: f') ++ e) ++ rest).
    rewrite <- (app_assoc (d :: f') e rest).
    unfold parseDecimal. cbv zeta.
    change (takeWhile isDigit (46%N :: (d :: f') ++ e ++ rest)) with (@nil N).
    change (dropWhile isDigit (46%N :: (d :: f') ++ e ++ rest))
      with (46%N :: (d :: f') ++ e ++ rest).
    cbv iota. rewrite N.eqb_refl.
    rewrite (takeWhile_digits_stop (d :: f') (e ++ rest) Hall Ht).
    rewrite (dropWhile_digits_app (d :: f') (e ++ rest) Hall), Hdr, Hz.
    rewrite app_nil_l. now rewrite digitsValue_MV.
  - destruct (DecimalDigits_inv i Hi) as (d & i' & -> & Hd & Hall).
    destruct (after_mantissa AfterInteger e rest _ x He ltac:(now left) Hstop)
      as (Ht & Hdr & Hz & Hdot).
    specialize (Hdot eq_refl).
    rewrite <- app_assoc.
    unfold parseDecimal. cbv zeta.
    rewrite (takeWhile_digits_stop (d :: i') (e ++ rest) Hall Ht).
    rewrite (dropWhile_digits_app (d :: i') (e ++ rest) Hall), Hdr.
    rewrite digitsValue_MV.
    destruct (e ++ rest) as [|c r].
    + simpl in Hz. now subst.
    + simpl in Hdot. rewrite Hdot, Hz. reflexivity.
Qed.

Lemma StrUnsignedDecimalLiteralMV_literal (u : jsstring) (mv : mathValue)
    (en : literalEnd) :
  StrUnsignedDecimalLiteralMV u mv en -> StrUnsignedDecimalLiteral u.
Proof.
  assert (Hsi : forall si z, SignedIntegerMV si z -> SignedInteger si)
    by (intros si z [ds H|ds H|ds H]; now constructor).
  assert (He : forall e z x, ExponentPartOptMV e z x -> ExponentPartOpt e)
    by (intros e z x [|si z' H|si z' H]; constructor; eauto).
  intros [|i e z x Hi H|i f e z x Hi Hf H|f e z x Hf H|i e z x Hi H];
    [apply SU_infinity | apply SU_int_dot | apply SU_int_dot_frac
     | apply SU_dot_frac | apply SU_int]; eauto.
Qed.

Lemma StrDecimalLiteralMV_literal (p : jsstring) (neg : bool)
    (mv : mathValue) (en : literalEnd) :
  StrDecimalLiteralMV p neg mv en -> StrDecimalLiteral p.
Proof.
  intros [u mv' en' H|u mv' en' H|u mv' en' H];
    [apply SD_plain | apply SD_plus | apply SD_minus];
    eapply StrUnsignedDecimalLiteralMV_literal; eauto.
Qed.

Lemma decimal_literal_head (u : jsstring) (mant : N) (exp10 : Z)
    (en : literalEnd) :
  StrUnsignedDecimalLiteralMV u (MVDecimal mant exp10) en ->
  exists c u', u = c :: u' /\ (73 =? c)%N = false.
Proof.
  intros Hu.
  inversion Hu as [|i e z x Hi He|i f e z x Hi Hf He|f e z x Hf He|i e z x Hi He];
    subst.
  - destruct (DecimalDigits_inv i Hi) as (d & i' & -> & Hd & _).
    exists d, (i' ++ 46%N :: e). split; [reflexivity|].
    apply (isDigit_not_special d Hd).
  - destruct (DecimalDigits_inv i Hi) as (d & i' & -> & Hd & _).
    exists d, (i' ++ 46%N :: f ++ e). split; [reflexivity|].
    apply (isDigit_not_special d Hd).
  - now exists 46%N, (f ++ e).
  - destruct (DecimalDigits_inv i Hi) as (d & i' & -> & Hd & _).
    exists d, (i' ++ e). split; [reflexivity|].
    apply (isDigit_not_special d Hd).
Qed.

Lemma parseUnsigned_MV (neg : bool) (u rest : jsstring) (mv : mathValue)
    (en : literalEnd) :
  StrUnsignedDecimalLiteralMV u mv en -> canContinue en rest = false ->
  parseUnsigned neg (u ++ rest) = numberOfMV neg mv.
Proof.
  intros Hu Hstop. unfold parseUnsigned. destruct mv as [|mant exp10].
  - inversion Hu; subst. now rewrite startsWith_app.
  - destruct (decimal_literal_head u mant exp10 en Hu) as (c & u' & Eu & Hc).
    cbn [numberOfMV].
    rewrite <- (parseDecimal_MV neg u rest mant exp10 en Hu Hstop). rewrite Eu.
    change ((c :: u') ++ rest) with (c :: (u' ++ rest)).
    change (startsWith INFINITY_WORD (c :: u' ++ rest))
      with ((73 =? c)%N && startsWith (List.tl INFINITY_WORD) (u' ++ rest)).
    now rewrite Hc.
Qed.

(** [parseFloat] yields the Number value of the literal at the head of the
    text, when what follows cannot continue that literal. *)
Lemma parseFloat_MV (p rest : jsstring) (neg : bool) (mv : mathValue)
    (en : literalEnd) :
  StrDecimalLiteralMV p neg mv en -> canContinue en rest = false ->
  parseFloat (p ++ rest) = numberOfMV neg mv
  /\ isNaN (numberOfMV neg mv) = false.
Proof.
  intros Hp Hstop. split.
  - destruct Hp as [u mv en Hu|u mv en Hu|u mv en Hu].
    + destruct (StrUnsignedDecimalLiteral_head u
                  (StrUnsignedDecimalLiteralMV_literal u mv en Hu))
        as (c & u' & Eu & Hws & Hplus & Hminus & _).
      rewrite <- (parseUnsigned_MV false u rest mv en Hu Hstop). rewrite Eu.
      unfold parseFloat, trimStart. simpl. now rewrite Hws, Hplus, Hminus.
    + now rewrite <- (parseUnsigned_MV false u rest mv en Hu Hstop).
    + now rewrite <- (parseUnsigned_MV true u rest mv en Hu Hstop).
  - destruct mv; [reflexivity | apply roundDecimal_not_NaN].
Qed.

(** ** The import loop *)

Lemma createdPages_app (a b : list event) :
  createdPages (a ++ b) = createdPages a ++ createdPages b.
Proof.
  induction a as [|ev a IH]; [reflexivity|].
  destruct ev; simpl; now rewrite IH.
Qed.

Section ScriptProperties.

Context {env : Environment}.

(** C4. A non-empty data line whose timestamp column or amount column is
    absent (missing or empty) is skipped: the counters and the remote state
    are as before and nothing is written, so no record is created. *)
Theorem importRow_skips_absent (raw : jsstring) (cnt : Counters) (r : Remote) :
  trim raw <> [] ->
  truthy (parseColumns (trim raw) !! 0%nat) = false
  \/ truthy (parseColumns (trim raw) !! 5%nat) = false ->
  importRow raw cnt r = (Normal cnt, r, [])
  /\ createdPages (eventsOf (importRow raw cnt) r) = [].
Proof.
  intros Hne Habsent.
  assert (E : importRow raw cnt r = (Normal cnt, r, [])).
  { unfold importRow. rewrite bool_decide_eq_false_2 by exact Hne.
    destruct Habsent as [H|H]; rewrite H; simpl;
      rewrite ?orb_true_r; reflexivity. }
  split; [exact E|]. unfold eventsOf. now rewrite E.
Qed.

(** What a line that passes the two checks does: one [pages.create] call
    with the page built from its columns, then the success log, or the
    three lines of the [catch] block. *)
Lemma importRow_submits (raw : jsstring) (cnt : Counters) (r : Remote)
    (dateStr amountStr : jsstring) (dateValue : DateValue) :
  trim raw <> [] ->
  parseColumns (trim raw) !! 0%nat = Some dateStr -> dateStr <> [] ->
  parseColumns (trim raw) !! 5%nat = Some amountStr -> amountStr <> [] ->
  Date_parse dateStr = Some dateValue ->
  isNaN (parseFloat (normalizeAmount amountStr)) = false ->
  let columns := parseColumns (trim raw) in
  let page :=
    buildPage columns dateValue (parseFloat (normalizeAmount amountStr)) in
  importRow raw cnt r
  = match create page r with
    | (Resolved _, r1) =>
        (Normal (countSuccess cnt), r1,
         [PagesCreate page;
          ConsoleLog [AStr (lit "✅ 已导入:"); AStr dateStr;
                      argOf (columns !! 3%nat); AStr amountStr]])
    | (Rejected e, r1) =>
        (Normal (countFailure cnt), r1,
         PagesCreate page
           :: ConsoleError [AStr (lit "❌ 导入失败:"); AStr (message e)]
           :: ConsoleError [AStr (lit "失败的数据行:"); AStr (trim raw)]
           :: (if truthy (body e) then
                 [ConsoleError [AStr (lit "详细错误:");
                                AStr (JSON_stringify (stringOf (body e)))]]
               else []))
    end.
Proof.
  intros Hne Hd Hdne Ha Hane Hdate Hnum columns page.
  subst columns page.
  unfold importRow. rewrite bool_decide_eq_false_2 by exact Hne.
  rewrite Hd, Ha.
  destruct dateStr as [|d0 dr]; [done|]. destruct amountStr as [|a0 ar]; [done|].
  cbn [truthy negb orb stringOf]. rewrite Hdate, Hnum.
  unfold tryCatch, bind, await, emit, ret, rowFailed.
  match goal with
  | |- context [create ?p r] => destruct (create p r) as [[[]|e] r1]
  end; [reflexivity|].
  destruct (truthy (body e)); reflexivity.
Qed.

(** C5 (as amended). A line whose timestamp column is present and parses
    as a date, and whose amount column is present but, once normalised,
    does not parse as a number, is counted as failed: the failure counter
    grows by one, the success counter and the remote state are unchanged,
    the only thing written is the error line with the amount text, no
    record is created, and the loop goes on with the next line. *)
Theorem importRow_unparseable_amount (raw : jsstring) (rest : list jsstring)
    (cnt : Counters) (r : Remote) (dateStr amountStr : jsstring)
    (dateValue : DateValue) :
  trim raw <> [] ->
  parseColumns (trim raw) !! 0%nat = Some dateStr -> dateStr <> [] ->
  parseColumns (trim raw) !! 5%nat = Some amountStr -> amountStr <> [] ->
  Date_parse dateStr = Some dateValue ->
  parseFloat (normalizeAmount amountStr) = NaN ->
  let failed :=
    {| successCount := successCount cnt;
       failureCount := S (failureCount cnt) |} in
  let logged := ConsoleError [AStr (lit "无效的金额:"); AStr amountStr] in
  importRow raw cnt r = (Normal failed, r, [logged])
  /\ createdPages (eventsOf (importRow raw cnt) r) = []
  /\ importRows (raw :: rest) cnt r
     = (let '(c, r', evs) := importRows rest failed r in (c, r', logged :: evs)).
Proof.
  intros Hne Hd Hdne Ha Hane Hdate Hnan failed logged.
  assert (E : importRow raw cnt r = (Normal failed, r, [logged])).
  { unfold importRow. rewrite bool_decide_eq_false_2 by exact Hne.
    rewrite Hd, Ha.
    destruct dateStr as [|d0 dr]; [done|].
    destruct amountStr as [|a0 ar]; [done|].
    cbn [truthy negb orb stringOf]. rewrite Hdate, Hnan. reflexivity. }
  split; [exact E|]. split.
  - unfold eventsOf. now rewrite E.
  - cbn [importRows]. unfold bind at 1. rewrite E.
    destruct (importRows rest failed r) as [[c r'] evs]. reflexivity.
Qed.

(** C6. For a line that is submitted, every empty column is replaced in the
    record by its fallback: title '(无商品名)' for the description,
    category '其他', counterparty '未知', direction '支出', payment method
    '未知'. *)
Theorem importRow_fallbacks (raw : jsstring) (cnt : Counters) (r : Remote)
    (dateStr amountStr : jsstring) (dateValue : DateValue) :
  trim raw <> [] ->
  parseColumns (trim raw) !! 0%nat = Some dateStr -> dateStr <> [] ->
  parseColumns (trim raw) !! 5%nat = Some amountStr -> amountStr <> [] ->
  Date_parse dateStr = Some dateValue ->
  isNaN (parseFloat (normalizeAmount amountStr)) = false ->
  let columns := parseColumns (trim raw) in
  exists page,
    createdPages (eventsOf (importRow raw cnt) r) = [page]
    /\ (truthy (columns !! 3%nat) = false -> Page.Name page = lit "(无商品名)")
    /\ (truthy (columns !! 1%nat) = false -> Page.Category page = lit "其他")
    /\ (truthy (columns !! 2%nat) = false ->
        Page.Counterparty page = lit "未知")
    /\ (truthy (columns !! 4%nat) = false -> Page.Type_ page = lit "支出")
    /\ (truthy (columns !! 6%nat) = false ->
        Page.Payment_Method page = lit "未知").
Proof.
  intros Hne Hd Hdne Ha Hane Hdate Hnum columns.
  pose proof (importRow_submits raw cnt r dateStr amountStr dateValue
                Hne Hd Hdne Ha Hane Hdate Hnum) as E.
  cbv zeta in E. fold columns in E.
  set (page := buildPage columns dateValue
                 (parseFloat (normalizeAmount amountStr))) in *.
  exists page. split.
  - unfold eventsOf. rewrite E.
    destruct (create page r) as [[[]|e] r1]; [reflexivity|].
    simpl. now destruct (truthy (body e)).
  - assert (Hor : forall v d, truthy v = false -> orElse v d = d).
    { intros [[|c s]|] d; simpl; [done|discriminate|done]. }
    subst page. unfold buildPage. simpl.
    repeat split; intros H; now rewrite (Hor _ _ H).
Qed.

(** C10 (as amended). For a line whose timestamp column is present and
    parses as a date, and whose normalised amount text is a decimal literal
    followed by text that cannot continue it (as in '25.50元' or
    '12.50EUR'), [parseFloat] yields the Number value of that literal, the
    double nearest to its decimal value or an infinity, and never NaN. The
    line is then submitted with that value as its amount; it is counted as
    imported when the remote service accepts the record, and as failed
    when the service rejects it. *)
Theorem importRow_numeric_prefix (raw : jsstring) (cnt : Counters)
    (r : Remote) (dateStr amountStr p rest : jsstring) (neg : bool)
    (mv : mathValue) (en : literalEnd) (dateValue : DateValue) :
  trim raw <> [] ->
  parseColumns (trim raw) !! 0%nat = Some dateStr -> dateStr <> [] ->
  Date_parse dateStr = Some dateValue ->
  parseColumns (trim raw) !! 5%nat = Some amountStr ->
  normalizeAmount amountStr = p ++ rest ->
  StrDecimalLiteralMV p neg mv en -> canContinue en rest = false ->
  let amount := numberOfMV neg mv in
  let page := buildPage (parseColumns (trim raw)) dateValue amount in
  parseFloat (normalizeAmount amountStr) = amount
  /\ isNaN amount = false
  /\ Page.Amount page = amount
  /\ createdPages (eventsOf (importRow raw cnt) r) = [page]
  /\ (forall r1, create page r = (Resolved tt, r1) ->
                 importRow raw cnt r
                 = (Normal {| successCount := S (successCount cnt);
                              failureCount := failureCount cnt |},
                    r1,
                    [PagesCreate page;
                     ConsoleLog [AStr (lit "✅ 已导入:"); AStr dateStr;
                                 argOf (parseColumns (trim raw) !! 3%nat);
                                 AStr amountStr]]))
  /\ (forall e r1, create page r = (Rejected e, r1) ->
                   completionOf (importRow raw cnt) r
                   = Normal {| successCount := successCount cnt;
                               failureCount := S (failureCount cnt) |}).
Proof.
  intros Hne Hd Hdne Hdate Ha Hnorm Hp Hstop amount page.
  destruct (parseFloat_MV p rest neg mv en Hp Hstop) as [Hval Hnum].
  fold amount in Hval, Hnum. rewrite <- Hnorm in Hval.
  assert (Hane : amountStr <> []).
  { intros ->. simpl in Hval. rewrite <- Hval in Hnum. discriminate Hnum. }
  assert (Hnum' : isNaN (parseFloat (normalizeAmount amountStr)) = false)
    by now rewrite Hval.
  pose proof (importRow_submits raw cnt r dateStr amountStr dateValue
                Hne Hd Hdne Ha Hane Hdate Hnum') as E.
  cbv zeta in E. rewrite Hval in E. fold page in E.
  split; [exact Hval|]. split; [exact Hnum|]. split; [reflexivity|]. split.
  - unfold eventsOf. rewrite E.
    destruct (create page r) as [[[]|e] r1]; [reflexivity|].
    simpl. now destruct (truthy (body e)).
  - split.
    + intros r1 Hok. rewrite E, Hok. reflexivity.
    + intros e r1 Hrej. unfold completionOf. rewrite E, Hrej. reflexivity.
Qed.

(** ** Schema synchronisation *)

Lemma updateDatabaseProperties_rejected (properties : Schema.t) (r : Remote)
    (e : error) :
  schemaSyncRejects properties r e ->
  exists r' evs,
    updateDatabaseProperties properties r
    = (Throw e, r',
       evs ++ [ConsoleError [AStr (lit "更新数据库属性失败:"); AError e]])
    /\ createdPages evs = [].
Proof.
  unfold schemaSyncRejects, updateDatabaseProperties.
  unfold tryCatch, bind, await, emit, throw.
  destruct (retrieve r) as [[db|e1] r1].
  - destruct (update properties r1) as [[[]|e2] r2].
    + destruct (retrieve r2) as [[db'|e3] r3]; simpl; intros H; [discriminate|].
      injection H as ->. eexists r3, [_; _; _; _; _]. split; reflexivity.
    + intros ->. eexists r2, [_; _; _]. split; reflexivity.
  - intros ->. eexists r1, [_]. split; reflexivity.
Qed.

(** C3. When a retrieve or update call of the schema synchronisation is
    rejected, [updateDatabaseProperties] writes the error with its context
    line and throws the same error to its caller; [main] then ends in its
    outer handler, which writes the error again, and the run contains no
    [pages.create] call at all. *)
Theorem schema_sync_failure_aborts_import (path csvContent : jsstring)
    (r : Remote) (e : error) :
  path <> [] ->
  existsSync (resolve path) = true ->
  readFileSync (resolve path) = Resolved csvContent ->
  let properties := getDatabaseProperties (extractUniqueValues csvContent) in
  schemaSyncRejects properties r e ->
  completionOf (updateDatabaseProperties properties) r = Throw e
  /\ last (eventsOf (updateDatabaseProperties properties) r)
     = Some (ConsoleError [AStr (lit "更新数据库属性失败:"); AError e])
  /\ createdPages (eventsOf (main (Some path)) r) = []
  /\ last (eventsOf (main (Some path)) r)
     = Some (ConsoleError [AStr (lit "处理过程中出错:"); AError e])
  /\ completionOf (main (Some path)) r = Normal tt.
Proof.
  intros Hpath Hexists Hread properties Hrej.
  destruct (updateDatabaseProperties_rejected properties r e Hrej)
    as (r' & evs & E & Hnone).
  split; [unfold completionOf; now rewrite E|].
  split; [unfold eventsOf; rewrite E; simpl; apply last_snoc|].
  assert (Em : exists pre,
             main (Some path) r
             = (Normal tt, r',
                pre ++ evs
                  ++ [ConsoleError [AStr (lit "更新数据库属性失败:"); AError e];
                      ConsoleError [AStr (lit "处理过程中出错:"); AError e]])
             /\ createdPages pre = []).
  { destruct path as [|c0 path']; [done|].
    unfold main. cbn [truthy negb stringOf]. rewrite Hexists. cbn [negb].
    unfold tryCatch, bind, emit, ret. rewrite Hread.
    fold properties. rewrite E.
    eexists [_; _; _; _; _]. split.
    - cbn [app]. rewrite <- app_assoc. reflexivity.
    - reflexivity. }
  destruct Em as (pre & Em & Hpre).
  unfold eventsOf, completionOf. rewrite Em. cbn [fst snd].
  split; [|split; [|reflexivity]].
  - rewrite !createdPages_app, Hpre, Hnone. reflexivity.
  - rewrite !last_app. reflexivity.
Qed.

End ScriptProperties.

(** ** The theorems at concrete inputs *)

Lemma schema_sync_failure_aborts_import_witness :
  createdPages (eventsOf (@main (demoEnv false) (Some (lit "bill.csv"))) []) = []
  /\ completionOf (@main (demoEnv false) (Some (lit "bill.csv"))) [] = Normal tt.
Proof.
  destruct (@schema_sync_failure_aborts_import (demoEnv false)
              (lit "bill.csv")
              (lit "微信支付账单明细
交易时间,交易类型,交易对方,商品,收/支,金额,支付方式
2024-01-01 10:00:00,餐饮美食,测试商户,测试商品,支出,¥25.50,零钱
")
              [] demoError
              ltac:(vm_compute; discriminate)
              ltac:(vm_compute; reflexivity)
              ltac:(vm_compute; reflexivity)
              ltac:(vm_compute; reflexivity))
    as (_ & _ & Hnone & _ & Hdone).
  split; [exact Hnone | exact Hdone].
Defined.

Lemma importRow_skips_absent_witness :
  @importRow (demoEnv true) (lit ",餐饮美食,商户,商品,支出,¥25.50,零钱")
    (mkCounters 3 1) []
  = (Normal (mkCounters 3 1), [], []).
Proof.
  apply (@importRow_skips_absent (demoEnv true)
           (lit ",餐饮美食,商户,商品,支出,¥25.50,零钱") (mkCounters 3 1) []).
  - vm_compute. discriminate.
  - left. vm_compute. reflexivity.
Defined.

Lemma importRow_unparseable_amount_witness :
  @importRow (demoEnv true)
    (lit "2024-01-01 10:00:00,餐饮美食,商户,商品,支出,abc,零钱")
    (mkCounters 3 1) []
  = (Normal (mkCounters 3 2), [],
     [ConsoleError [AStr (lit "无效的金额:"); AStr (lit "abc")]]).
Proof.
  apply (@importRow_unparseable_amount (demoEnv true)
           (lit "2024-01-01 10:00:00,餐饮美食,商户,商品,支出,abc,零钱") []
           (mkCounters 3 1) [] (lit "2024-01-01 10:00:00") (lit "abc")
           (lit "2024-01-01 10:00:00")).
  - vm_compute. discriminate.
  - vm_compute. reflexivity.
  - vm_compute. discriminate.
  - vm_compute. reflexivity.
  - vm_compute. discriminate.
  - vm_compute. reflexivity.
  - vm_compute. reflexivity.
Defined.

(** C5, the claim as stated fails: the amount text 'abc' of this line does
    not parse, yet the line, whose timestamp column is empty, is skipped:
    the failure counter is not incremented and nothing is logged. *)
Lemma importRow_unparseable_amount_skipped :
  let raw := lit ",餐饮美食,商户,商品,支出,abc,零钱" in
  trim raw <> []
  /\ parseColumns (trim raw) !! 5%nat = Some (lit "abc")
  /\ parseFloat (normalizeAmount (lit "abc")) = NaN
  /\ @importRow (demoEnv true) raw (mkCounters 0 0) []
     = (Normal (mkCounters 0 0), [], []).
Proof.
  cbv zeta. split; [vm_compute; discriminate|].
  repeat split; vm_compute; reflexivity.
Qed.

Lemma importRow_fallbacks_witness :
  exists page,
    createdPages
      (eventsOf (@importRow (demoEnv true)
                   (lit "2024-01-01 10:00:00,,,,,¥25.50,") (mkCounters 0 0))
         [])
    = [page]
    /\ Page.Name page = lit "(无商品名)"
    /\ Page.Category page = lit "其他"
    /\ Page.Counterparty page = lit "未知"
    /\ Page.Type_ page = lit "支出"
    /\ Page.Payment_Method page = lit "未知".
Proof.
  destruct (@importRow_fallbacks (demoEnv true)
              (lit "2024-01-01 10:00:00,,,,,¥25.50,") (mkCounters 0 0) []
              (lit "2024-01-01 10:00:00") (lit "¥25.50")
              (lit "2024-01-01 10:00:00")
              ltac:(vm_compute; discriminate)
              ltac:(vm_compute; reflexivity)
              ltac:(vm_compute; discriminate)
              ltac:(vm_compute; reflexivity)
              ltac:(vm_compute; discriminate)
              ltac:(vm_compute; reflexivity)
              ltac:(vm_compute; reflexivity))
    as (page & Hc & Hn & Hcat & Hcp & Hty & Hpm).
  exists page. split; [exact Hc|].
  split; [apply Hn; vm_compute; reflexivity|].
  split; [apply Hcat; vm_compute; reflexivity|].
  split; [apply Hcp; vm_compute; reflexivity|].
  split; [apply Hty; vm_compute; reflexivity|].
  apply Hpm; vm_compute; reflexivity.
Defined.

Lemma literal_25_50 : StrDecimalLiteral (lit "25.50").
Proof.
  change (lit "25.50") with ([50; 53] ++ 46 :: [53; 48] ++ [])%N.
  apply SD_plain, SU_int_dot_frac.
  - split; [discriminate | reflexivity].
  - split; [discriminate | reflexivity].
  - apply EP_none.
Defined.

Lemma literalMV_25_50 :
  StrDecimalLiteralMV (lit "25.50") false (MVDecimal 2550 (-2)) AfterFraction.
Proof.
  change (lit "25.50") with ([50; 53] ++ 46 :: [53; 48] ++ [])%N.
  change (MVDecimal 2550 (-2))
    with (MVDecimal (digitsMV [50; 53] * 10 ^ N.of_nat (length [53; 48]%N)
                     + digitsMV [53; 48])%N
            (0 - Z.of_nat (length [53; 48]%N))%Z).
  apply SDV_plain, (SUV_int_dot_frac [50; 53]%N [53; 48]%N [] 0%Z false).
  - split; [discriminate | reflexivity].
  - split; [discriminate | reflexivity].
  - apply EPV_none.
Defined.

Lemma literalMV_12_50 :
  StrDecimalLiteralMV (lit "12.50") false (MVDecimal 1250 (-2)) AfterFraction.
Proof.
  change (lit "12.50") with ([49; 50] ++ 46 :: [53; 48] ++ [])%N.
  change (MVDecimal 1250 (-2))
    with (MVDecimal (digitsMV [49; 50] * 10 ^ N.of_nat (length [53; 48]%N)
                     + digitsMV [53; 48])%N
            (0 - Z.of_nat (length [53; 48]%N))%Z).
  apply SDV_plain, (SUV_int_dot_frac [49; 50]%N [53; 48]%N [] 0%Z false).
  - split; [discriminate | reflexivity].
  - split; [discriminate | reflexivity].
  - apply EPV_none.
Defined.

Lemma importRow_numeric_prefix_witness :
  let raw := lit "2024-01-01 10:00:00,餐饮美食,商户,商品,支出,¥25.50元,零钱" in
  let raw' := lit "2024-01-02 10:00:00,餐饮美食,商户,商品,支出,12.50EUR,零钱" in
  (parseFloat (normalizeAmount (lit "¥25.50元"))
   = Finite false 7177611906121728 (-48)
   /\ completionOf (@importRow (demoEnv true) raw (mkCounters 0 0)) []
      = Normal (mkCounters 1 0))
  /\ (parseFloat (normalizeAmount (lit "12.50EUR"))
      = Finite false 7036874417766400 (-49)
      /\ length (createdPages
                   (eventsOf (@importRow (demoEnv true) raw' (mkCounters 0 0))
                      []))
         = 1%nat).
Proof.
  intros raw raw'. split.
  - destruct (@importRow_numeric_prefix (demoEnv true) raw (mkCounters 0 0) []
                (lit "2024-01-01 10:00:00") (lit "¥25.50元") (lit "25.50")
                (lit "元") false (MVDecimal 2550 (-2)) AfterFraction
                (lit "2024-01-01 10:00:00")
                ltac:(vm_compute; discriminate)
                ltac:(vm_compute; reflexivity)
                ltac:(vm_compute; discriminate)
                ltac:(vm_compute; reflexivity)
                ltac:(vm_compute; reflexivity)
                ltac:(vm_compute; reflexivity)
                literalMV_25_50
                ltac:(vm_compute; reflexivity))
      as (Hval & _ & _ & _ & Hok & _).
    split; [exact Hval|].
    unfold completionOf. erewrite Hok; [reflexivity|]. vm_compute. reflexivity.
  - destruct (@importRow_numeric_prefix (demoEnv true) raw' (mkCounters 0 0) []
                (lit "2024-01-02 10:00:00") (lit "12.50EUR") (lit "12.50")
                (lit "EUR") false (MVDecimal 1250 (-2)) AfterFraction
                (lit "2024-01-02 10:00:00")
                ltac:(vm_compute; discriminate)
                ltac:(vm_compute; reflexivity)
                ltac:(vm_compute; discriminate)
                ltac:(vm_compute; reflexivity)
                ltac:(vm_compute; reflexivity)
                ltac:(vm_compute; reflexivity)
                literalMV_12_50
                ltac:(vm_compute; reflexivity))
      as (Hval & _ & _ & Hcreated & _).
    split; [exact Hval|]. now rewrite Hcreated.
Defined.

(** C10, the claim as stated fails: the normalised amount of these two
    lines is the literal '25.50' followed by '元', and [parseFloat] reads
    25.5 from it; yet the first line, whose timestamp column is empty, is
    skipped, neither submitted nor counted, and the second, whose record
    the remote service rejects, is counted as failed. *)
Lemma importRow_numeric_prefix_not_imported :
  let skipped := lit ",餐饮美食,商户,商品,支出,¥25.50元,零钱" in
  let rejected := lit "2024-01-01 10:00:00,餐饮美食,商户,reject,支出,¥25.50元,零钱" in
  parseColumns (trim skipped) !! 5%nat = Some (lit "¥25.50元")
  /\ parseColumns (trim rejected) !! 5%nat = Some (lit "¥25.50元")
  /\ normalizeAmount (lit "¥25.50元") = lit "25.50" ++ lit "元"
  /\ StrDecimalLiteral (lit "25.50")
  /\ exactValue (parseFloat (normalizeAmount (lit "¥25.50元")))
     = Some (51, 2)%Z
  /\ @importRow (demoEnv true) skipped (mkCounters 0 0) []
     = (Normal (mkCounters 0 0), [], [])
  /\ completionOf (@importRow (demoEnv true) rejected (mkCounters 0 0)) []
     = Normal (mkCounters 0 1).
Proof.
  cbv zeta. repeat split; try (vm_compute; reflexivity).
  exact literal_25_50.
Qed.

(** ** Scenarios *)

Example scenario1_one_transaction :
  createdPages (eventsOf (@main (demoEnv true) (Some (lit "bill.csv"))) [])
  = [ {| Page.Name := lit "测试商品";
         Page.Date := lit "2024-01-01 10:00:00";
         Page.Category := lit "餐饮美食";
         Page.Counterparty := lit "测试商户";
         Page.Type_ := lit "支出";
         Page.Amount := Finite false 7177611906121728 (-48);
         Page.Payment_Method := lit "零钱" |} ].
Proof. vm_compute. reflexivity. Qed.

Example scenario4_two_categories :
  let uv := extractUniqueValues (lit "交易时间,交易类型,交易对方,商品,收/支,金额,支付方式
2024-01-01 10:00:00,餐饮美食,商户,商品,支出,¥25.50,零钱
2024-01-02 10:00:00,交通出行,商户,商品,支出,¥3.00,零钱
2024-01-03 10:00:00,餐饮美食,商户,商品,支出,¥8.00,零钱") in
  categories uv = [lit "餐饮美食"; lit "交通出行"]
  /\ optionNames (Schema.Category (getDatabaseProperties uv))
     = [lit "餐饮美食"; lit "交通出行"; lit "其他"].
Proof. split; vm_compute; reflexivity. Qed.

Example scenario5_counts :
  completionOf
    (@importRows (demoEnv true)
       [lit "2024-01-01 10:00:00,a,b,c,支出,¥1.00,零钱";
        lit "not a date,a,b,c,支出,¥1.00,零钱";
        lit "";
        lit "2024-01-02 10:00:00,a,b,c,支出,¥2.00,零钱";
        lit "2024-01-03 10:00:00,a,b,reject,支出,¥3.00,零钱";
        lit ",a,b,c,支出,¥3.00,零钱";
        lit "2024-01-04 10:00:00,a,b,c,支出,abc,零钱";
        lit "2024-01-05 10:00:00,a,b,c,支出,¥1,200.00,零钱"]
       (mkCounters 0 0)) []
  = Normal (mkCounters 3 3).
Proof. vm_compute. reflexivity. Qed.

(** * Further properties of the script *)

(** ** White space around a line *)

Lemma dropWhile_all {A : Type} (p : A -> bool) (l : list A) :
  forallb p l = true -> dropWhile p l = [].
Proof.
  induction l as [|x l IH]; [reflexivity|]. simpl.
  intros H. apply andb_true_iff in H as [Hx Hl]. rewrite Hx. now apply IH.
Qed.

Lemma dropWhile_app_all {A : Type} (p : A -> bool) (ws l : list A) :
  forallb p ws = true -> dropWhile p (ws ++ l) = dropWhile p l.
Proof.
  induction ws as [|x ws IH]; [reflexivity|]. simpl.
  intros H. apply andb_true_iff in H as [Hx Hl]. rewrite Hx. now apply IH.
Qed.

Lemma trimEnd_app_ws (s ws : jsstring) :
  forallb isWhiteSpace ws = true -> trimEnd (s ++ ws) = trimEnd s.
Proof.
  intros H. unfold trimEnd. rewrite rev_app_distr.
  rewrite dropWhile_app_all; [reflexivity|].
  rewrite forallb_forall in *. intros x Hx. apply H. now apply in_rev.
Qed.

Lemma trim_app_ws (s ws : jsstring) :
  forallb isWhiteSpace ws = true -> trim (s ++ ws) = trim s.
Proof.
  intros H. unfold trim, trimStart. induction s as [|c s IH].
  - simpl. now rewrite dropWhile_all.
  - simpl. destruct (isWhiteSpace c); [exact IH|].
    change (c :: s ++ ws) with ((c :: s) ++ ws). now apply trimEnd_app_ws.
Qed.

Lemma trim_ws_app (ws s : jsstring) :
  forallb isWhiteSpace ws = true -> trim (ws ++ s) = trim s.
Proof.
  intros H. unfold trim, trimStart. now rewrite dropWhile_app_all.
Qed.

Lemma trim_surrounded (ws1 s ws2 : jsstring) :
  forallb isWhiteSpace ws1 = true -> forallb isWhiteSpace ws2 = true ->
  trim (ws1 ++ s ++ ws2) = trim s.
Proof. intros H1 H2. now rewrite trim_ws_app, trim_app_ws. Qed.

(** ** Splitting *)

Lemma split_length (sep : N) (s : jsstring) :
  length (split sep s) = S (countUnit sep s).
Proof.
  unfold countUnit. induction s as [|c s IH]; [reflexivity|].
  simpl. rewrite (N.eqb_sym sep c). destruct (c =? sep)%N; simpl.
  - now rewrite IH.
  - destruct (split sep s) as [|w ws]; simpl in *; [discriminate IH | exact IH].
Qed.

Lemma split_app_sep (sep : N) (pre s : jsstring) :
  forallb (fun c => negb (c =? sep)%N) pre = true ->
  split sep (pre ++ sep :: s) = pre :: split sep s.
Proof.
  induction pre as [|c pre IH]; intros H.
  - simpl. now rewrite N.eqb_refl.
  - simpl in *. apply andb_true_iff in H as [Hc Hpre].
    apply negb_true_iff in Hc. rewrite Hc, IH by exact Hpre. reflexivity.
Qed.

Lemma parseColumns_length (line : jsstring) :
  length (parseColumns line) = S (countUnit COMMA line).
Proof. unfold parseColumns. rewrite length_map. apply split_length. Qed.

(** ** Cleaning a column, the two regular cases *)

Lemma forallb_dropWhile {A : Type} (p q : A -> bool) (l : list A) :
  forallb q l = true -> forallb q (dropWhile p l) = true.
Proof.
  induction l as [|x l IH]; [reflexivity|]. simpl. intros H.
  destruct (p x); [apply IH; now apply andb_true_iff in H as [_ ?]|exact H].
Qed.

Lemma forallb_rev {A : Type} (q : A -> bool) (l : list A) :
  forallb q l = true -> forallb q (rev l) = true.
Proof.
  rewrite !forallb_forall. intros H x Hx. apply H. now apply in_rev.
Qed.

Lemma forallb_trim (q : N -> bool) (s : jsstring) :
  forallb q s = true -> forallb q (trim s) = true.
Proof.
  intros H. unfold trim, trimEnd, trimStart.
  now apply forallb_rev, forallb_dropWhile, forallb_rev, forallb_dropWhile.
Qed.

Lemma dropLeadingQuote_no_quote (s : jsstring) :
  forallb (fun c => negb (c =? QUOTE)%N) s = true -> dropLeadingQuote s = s.
Proof.
  destruct s as [|c r]; [reflexivity|]. simpl. intros H.
  apply andb_true_iff in H as [Hc _]. apply negb_true_iff in Hc. now rewrite Hc.
Qed.

(** A field that contains no quote is only trimmed; a field that, once
    trimmed, is wrapped in a pair of quotes yields the text between them,
    whatever that text contains. *)
Theorem cleanColumn_regular_cases (col : jsstring) :
  (forallb (fun c => negb (c =? QUOTE)%N) col = true ->
   cleanColumn col = trim col)
  /\ (forall body, trim col = QUOTE :: body ++ [QUOTE] ->
                   cleanColumn col = body).
Proof.
  unfold cleanColumn. rewrite replaceQuotes_spec. split.
  - intros H. apply (forallb_trim _ col) in H.
    rewrite dropLeadingQuote_no_quote by exact H.
    unfold dropTrailingQuote.
    rewrite dropLeadingQuote_no_quote by now apply forallb_rev.
    apply rev_involutive.
  - intros body ->. simpl. unfold dropTrailingQuote.
    rewrite rev_app_distr. simpl. apply rev_involutive.
Qed.

Lemma cleanColumn_regular_cases_witness :
  cleanColumn (lit " 测试商户 ") = lit "测试商户"
  /\ cleanColumn (QUOTE :: QUOTE :: lit " a b " ++ [QUOTE; 32%N])
     = QUOTE :: lit " a b ".
Proof.
  split.
  - apply (proj1 (cleanColumn_regular_cases (lit " 测试商户 "))). reflexivity.
  - apply (proj2 (cleanColumn_regular_cases
                    (QUOTE :: QUOTE :: lit " a b " ++ [QUOTE; 32%N]))).
    reflexivity.
Defined.

(** ** Schema inference, exactly *)

Lemma Set_add_inv (x y : jsstring) (s : list jsstring) :
  y ∈ Set_add x s -> y ∈ s \/ y = x.
Proof.
  unfold Set_add. destruct (existsb (jsstring_eqb x) s); [now left|].
  intros H. apply elem_of_app in H as [H|H]; [now left|].
  apply list_elem_of_singleton in H. now right.
Qed.

Lemma scanLine_inv_1 acc raw (x : jsstring) :
  x ∈ (scanLine acc raw).1 ->
  x ∈ acc.1
  \/ (trim raw <> [] /\ parseColumns (trim raw) !! 1%nat = Some x /\ x <> []).
Proof.
  unfold scanLine. case_bool_decide as Hb; [now left|]. simpl.
  destruct (parseColumns (trim raw) !! 1%nat) as [[|c t]|] eqn:E; simpl;
    [now left| |now left].
  intros H. apply Set_add_inv in H as [H| ->]; [now left|]. now right.
Qed.

Lemma scanLine_inv_2 acc raw (x : jsstring) :
  x ∈ (scanLine acc raw).2 ->
  x ∈ acc.2
  \/ (trim raw <> [] /\ parseColumns (trim raw) !! 6%nat = Some x /\ x <> []).
Proof.
  unfold scanLine. case_bool_decide as Hb; [now left|]. simpl.
  destruct (parseColumns (trim raw) !! 6%nat) as [[|c t]|] eqn:E; simpl;
    [now left| |now left].
  intros H. apply Set_add_inv in H as [H| ->]; [now left|]. now right.
Qed.

Lemma fold_scanLine_inv lines acc (x : jsstring) :
  (x ∈ (fold_left scanLine lines acc).1 ->
   x ∈ acc.1
   \/ exists raw, raw ∈ lines /\ trim raw <> []
                  /\ parseColumns (trim raw) !! 1%nat = Some x /\ x <> [])
  /\ (x ∈ (fold_left scanLine lines acc).2 ->
      x ∈ acc.2
      \/ exists raw, raw ∈ lines /\ trim raw <> []
                     /\ parseColumns (trim raw) !! 6%nat = Some x /\ x <> []).
Proof.
  revert acc. induction lines as [|l lines IH]; intros acc;
    [split; intros H; now left|].
  simpl. destruct (IH (scanLine acc l)) as [IH1 IH2]. split; intros H.
  - destruct (IH1 H) as [H'|(raw & Hin & Hrest)].
    + apply scanLine_inv_1 in H' as [H'|H']; [now left|].
      right. exists l. split; [now left | exact H'].
    + right. exists raw. split; [now right | exact Hrest].
  - destruct (IH2 H) as [H'|(raw & Hin & Hrest)].
    + apply scanLine_inv_2 in H' as [H'|H']; [now left|].
      right. exists l. split; [now left | exact H'].
    + right. exists raw. split; [now right | exact Hrest].
Qed.

Lemma elem_of_drop_lookup {A : Type} (l : list A) (k : nat) (x : A) :
  x ∈ drop (S k) l <-> exists i, (k < i)%nat /\ l !! i = Some x.
Proof.
  rewrite list_elem_of_lookup. split.
  - intros [j Hj]. rewrite lookup_drop in Hj. exists (S k + j)%nat.
    split; [lia | exact Hj].
  - intros (i & Hlt & Hi). exists (i - S k)%nat. rewrite lookup_drop.
    now replace (S k + (i - S k))%nat with i by lia.
Qed.

(** The inferred categories are exactly the non-empty category columns of
    the non-blank lines after the header line, and the inferred payment
    methods exactly their non-empty payment-method columns: nothing is
    invented, and the empty string is never an option. *)
Theorem extractUniqueValues_exact (csvContent : jsstring)
    (dataStartIndex : nat) (x : jsstring) :
  findIndex isHeaderLine (split NEWLINE csvContent) = Some dataStartIndex ->
  (x ∈ categories (extractUniqueValues csvContent) <->
   x <> []
   /\ exists i raw,
       (dataStartIndex < i)%nat /\ split NEWLINE csvContent !! i = Some raw
       /\ trim raw <> [] /\ parseColumns (trim raw) !! 1%nat = Some x)
  /\ (x ∈ paymentMethods (extractUniqueValues csvContent) <->
      x <> []
      /\ exists i raw,
          (dataStartIndex < i)%nat /\ split NEWLINE csvContent !! i = Some raw
          /\ trim raw <> [] /\ parseColumns (trim raw) !! 6%nat = Some x).
Proof.
  intros Hidx. unfold extractUniqueValues. rewrite Hidx. simpl.
  set (lines := split NEWLINE csvContent).
  destruct (fold_scanLine_inv (drop (S dataStartIndex) lines) ([], []) x)
    as [Hinv1 Hinv2].
  split; split.
  - intros H. destruct (Hinv1 H) as [H'|(raw & Hin & Hne & Hcol & Hx)];
      [now apply elem_of_nil in H'|].
    split; [exact Hx|]. apply elem_of_drop_lookup in Hin as (i & Hlt & Hi).
    now exists i, raw.
  - intros (Hx & i & raw & Hlt & Hi & Hne & Hcol).
    apply (fold_scanLine_collects _ _ raw); try done.
    apply elem_of_drop_lookup. now exists i.
  - intros H. destruct (Hinv2 H) as [H'|(raw & Hin & Hne & Hcol & Hx)];
      [now apply elem_of_nil in H'|].
    split; [exact Hx|]. apply elem_of_drop_lookup in Hin as (i & Hlt & Hi).
    now exists i, raw.
  - intros (Hx & i & raw & Hlt & Hi & Hne & Hcol).
    apply (fold_scanLine_collects _ _ raw); try done.
    apply elem_of_drop_lookup. now exists i.
Qed.

Lemma extractUniqueValues_exact_witness :
  let csv := lit "交易时间,交易类型,交易对方,商品,收/支,金额,支付方式
2024-01-01 10:00:00,,商户,商品,支出,abc,零钱" in
  lit "abc" ∉ categories (extractUniqueValues csv).
Proof.
  intros csv Hin.
  assert (Hidx : findIndex isHeaderLine (split NEWLINE csv) = Some 0%nat)
    by (vm_compute; reflexivity).
  destruct (extractUniqueValues_exact csv 0 (lit "abc") Hidx) as [[Hc _] _].
  destruct (Hc Hin) as (_ & i & raw & Hlt & Hi & _ & Hcol).
  destruct i as [|[|i]]; [lia| |vm_compute in Hi; discriminate Hi].
  vm_compute in Hi. injection Hi as <-. vm_compute in Hcol. discriminate Hcol.
Defined.

(** ** The preamble before the header line *)

Lemma findIndex_cons_false {A : Type} (p : A -> bool) (x : A) (l : list A) :
  p x = false -> findIndex p (x :: l) = S <$> findIndex p l.
Proof. intros H. simpl. now rewrite H. Qed.

(** A first line that does not contain the header marker is ignored by the
    inference: the result is that of the text without this line. Repeated,
    this removes a preamble of any length. *)
Theorem extractUniqueValues_skips_preamble_line (pre csvContent : jsstring) :
  forallb (fun c => negb (c =? NEWLINE)%N) pre = true ->
  includes pre HEADER_MARKER = false ->
  extractUniqueValues (pre ++ NEWLINE :: csvContent)
  = extractUniqueValues csvContent.
Proof.
  intros Hnl Hmark. unfold extractUniqueValues.
  rewrite split_app_sep by exact Hnl.
  rewrite findIndex_cons_false by exact Hmark.
  destruct (findIndex isHeaderLine (split NEWLINE csvContent)) as [k|];
    reflexivity.
Qed.

Lemma extractUniqueValues_skips_preamble_line_witness :
  extractUniqueValues (lit "微信支付账单明细,,," ++ NEWLINE :: lit "交易时间,交易类型,交易对方,商品,收/支,金额,支付方式
2024-01-01 10:00:00,餐饮美食,商户,商品,支出,¥25.50,零钱")
  = extractUniqueValues (lit "交易时间,交易类型,交易对方,商品,收/支,金额,支付方式
2024-01-01 10:00:00,餐饮美食,商户,商品,支出,¥25.50,零钱").
Proof.
  apply extractUniqueValues_skips_preamble_line.
  - vm_compute. reflexivity.
  - vm_compute. reflexivity.
Defined.

(** ** The schema accepts what the import writes *)

Lemma orElse_cases (v : option jsstring) (d : jsstring) :
  (exists c t, v = Some (c :: t) /\ orElse v d = c :: t) \/ orElse v d = d.
Proof.
  destruct v as [[|c t]|]; simpl; [now right| |now right].
  left. now exists c, t.
Qed.

(** For every non-blank line after the header, the category and the
    payment method of the record built from it are options of the schema
    inferred from the same file: the value of the column when it is not
    empty, the fallback otherwise. *)
Theorem schema_covers_records {env : Environment} (csvContent : jsstring)
    (dataStartIndex i : nat) (raw : jsstring) (dateValue : DateValue)
    (amount : number) :
  findIndex isHeaderLine (split NEWLINE csvContent) = Some dataStartIndex ->
  (dataStartIndex < i)%nat ->
  split NEWLINE csvContent !! i = Some raw ->
  trim raw <> [] ->
  let properties := getDatabaseProperties (extractUniqueValues csvContent) in
  let page := buildPage (parseColumns (trim raw)) dateValue amount in
  Page.Category page ∈ optionNames (Schema.Category properties)
  /\ Page.Payment_Method page ∈ optionNames (Schema.Payment_Method properties).
Proof.
  intros Hidx Hlt Hraw Hne properties page. subst properties page. simpl.
  rewrite !map_app, !map_name_mkOption. simpl.
  assert (Hin : raw ∈ drop (S dataStartIndex) (split NEWLINE csvContent))
    by (apply elem_of_drop_lookup; now exists i).
  unfold extractUniqueValues. rewrite Hidx. simpl.
  destruct (fold_scanLine_collects _ ([], []) raw Hin Hne) as [Hc Hp].
  split; apply elem_of_app.
  - destruct (orElse_cases (parseColumns (trim raw) !! 1%nat) FALLBACK_CATEGORY)
      as [(c & t & Hv & ->)| ->]; [left; now apply Hc | right; now left].
  - destruct (orElse_cases (parseColumns (trim raw) !! 6%nat)
                FALLBACK_PAYMENT_METHOD)
      as [(c & t & Hv & ->)| ->]; [left; now apply Hp | right; now left].
Qed.

Lemma schema_covers_records_witness :
  let csv := lit "交易时间,交易类型,交易对方,商品,收/支,金额,支付方式
2024-01-01 10:00:00,餐饮美食,商户,商品,支出,¥25.50," in
  let properties := getDatabaseProperties (extractUniqueValues csv) in
  lit "餐饮美食" ∈ optionNames (Schema.Category properties)
  /\ lit "未知" ∈ optionNames (Schema.Payment_Method properties).
Proof.
  intros csv properties.
  exact (@schema_covers_records (demoEnv true) csv 0 1
           (lit "2024-01-01 10:00:00,餐饮美食,商户,商品,支出,¥25.50,")
           (lit "2024-01-01 10:00:00") NaN
           ltac:(vm_compute; reflexivity) ltac:(lia)
           ltac:(vm_compute; reflexivity) ltac:(vm_compute; discriminate)).
Defined.

(** ** Amount normalisation, in general *)

Lemma normalizeAmount_no_noise (x : jsstring) :
  forallb (fun c => negb (isAmountNoise c)) (normalizeAmount x) = true.
Proof.
  unfold normalizeAmount. induction x as [|c x IH]; [reflexivity|].
  simpl. destruct (isAmountNoise c) eqn:E; simpl; [exact IH|].
  now rewrite E, IH.
Qed.

Lemma trimStart_normalizeAmount (x : jsstring) :
  trimStart (normalizeAmount x) = normalizeAmount x.
Proof.
  pose proof (normalizeAmount_no_noise x) as Hclean. unfold trimStart.
  destruct (normalizeAmount x) as [|c r]; [reflexivity|].
  simpl in *. apply andb_true_iff in Hclean as [Hc _].
  unfold isAmountNoise in Hc. apply negb_true_iff in Hc.
  apply orb_false_iff in Hc as [Hc _]. apply orb_false_iff in Hc as [_ Hc].
  now rewrite Hc.
Qed.

(** Normalising an amount text leaves no '¥', no white space and no comma
    in it, is idempotent on every text, distributes over concatenation, and
    its result has no leading white space for [parseFloat] to skip. *)
Theorem normalizeAmount_removes_noise (x y : jsstring) :
  forallb (fun c => negb (isAmountNoise c)) (normalizeAmount x) = true
  /\ normalizeAmount (normalizeAmount x) = normalizeAmount x
  /\ normalizeAmount (x ++ y) = normalizeAmount x ++ normalizeAmount y
  /\ trimStart (normalizeAmount x) = normalizeAmount x.
Proof.
  split; [apply normalizeAmount_no_noise|]. split; [|split].
  - apply normalizeAmount_idempotent.
  - unfold normalizeAmount. apply List.filter_app.
  - apply trimStart_normalizeAmount.
Qed.

(** ** Which amounts pass the amount check *)

Lemma takeWhile_dropWhile {A : Type} (p : A -> bool) (l : list A) :
  takeWhile p l ++ dropWhile p l = l.
Proof.
  induction l as [|x l IH]; [reflexivity|]. simpl.
  destruct (p x); simpl; [now rewrite IH | reflexivity].
Qed.

Lemma forallb_takeWhile {A : Type} (p : A -> bool) (l : list A) :
  forallb p (takeWhile p l) = true.
Proof.
  induction l as [|x l IH]; [reflexivity|]. simpl.
  destruct (p x) eqn:E; simpl; [now rewrite E | reflexivity].
Qed.

Lemma startsWith_true (p s : jsstring) :
  startsWith p s = true -> exists rest, s = p ++ rest.
Proof.
  revert s. induction p as [|c p IH]; intros s H; [now exists s|].
  destruct s as [|d s]; [discriminate|]. simpl in H.
  apply andb_true_iff in H as [Hc Hp]. apply N.eqb_eq in Hc. subst d.
  destruct (IH s Hp) as [rest ->]. now exists rest.
Qed.

(** A text on which [parseDecimal] succeeds starts with an unsigned
    literal. *)
Lemma parseDecimal_sound (neg : bool) (s : jsstring) :
  isNaN (parseDecimal neg s) = false ->
  exists u rest, s = u ++ rest /\ StrUnsignedDecimalLiteral u.
Proof.
  unfold parseDecimal. cbv zeta.
  pose proof (takeWhile_dropWhile isDigit s) as Hs.
  pose proof (forallb_takeWhile isDigit s) as Hint.
  destruct (takeWhile isDigit s) as [|d int] eqn:Eint.
  - simpl in Hs. rewrite Hs. destruct s as [|c r]; [discriminate|].
    destruct (c =? 46)%N eqn:Ec; [|discriminate].
    apply N.eqb_eq in Ec. subst c.
    pose proof (takeWhile_dropWhile isDigit r) as Hr.
    pose proof (forallb_takeWhile isDigit r) as Hfrac.
    destruct (takeWhile isDigit r) as [|f frac] eqn:Efrac; [discriminate|].
    intros _. exists (46%N :: (f :: frac) ++ []), (dropWhile isDigit r).
    split.
    + rewrite app_nil_r. simpl. simpl in Hr. now rewrite Hr.
    + apply SU_dot_frac; [split; [discriminate | exact Hfrac] | apply EP_none].
  - intros _. exists ((d :: int) ++ []), (dropWhile isDigit s). split.
    + rewrite app_nil_r. now rewrite Hs.
    + apply SU_int; [split; [discriminate | exact Hint] | apply EP_none].
Qed.

Lemma parseUnsigned_sound (neg : bool) (s : jsstring) :
  isNaN (parseUnsigned neg s) = false ->
  exists u rest, s = u ++ rest /\ StrUnsignedDecimalLiteral u.
Proof.
  unfold parseUnsigned. destruct (startsWith INFINITY_WORD s) eqn:E.
  - intros _. destruct (startsWith_true _ _ E) as [rest ->].
    exists INFINITY_WORD, rest. split; [reflexivity | apply SU_infinity].
  - apply parseDecimal_sound.
Qed.

Lemma parseDecimal_digit_first (neg : bool) (d : N) (t : jsstring) :
  isDigit d = true -> isNaN (parseDecimal neg (d :: t)) = false.
Proof.
  intros Hd. unfold parseDecimal. cbv zeta. simpl takeWhile. simpl dropWhile.
  rewrite Hd. destruct (dropWhile isDigit t) as [|c r];
    [apply roundDecimal_not_NaN|].
  destruct (c =? 46)%N; apply roundDecimal_not_NaN.
Qed.

Lemma parseDecimal_dot_digit_first (neg : bool) (d : N) (t : jsstring) :
  isDigit d = true -> isNaN (parseDecimal neg (46%N :: d :: t)) = false.
Proof.
  intros Hd. unfold parseDecimal. cbv zeta.
  change (takeWhile isDigit (46%N :: d :: t)) with (@nil N).
  change (dropWhile isDigit (46%N :: d :: t)) with (46%N :: d :: t).
  cbv iota. rewrite N.eqb_refl. simpl takeWhile. rewrite Hd.
  apply roundDecimal_not_NaN.
Qed.

(** Whatever follows an unsigned literal, the text is read as a number. *)
Lemma parseUnsigned_complete (neg : bool) (u rest : jsstring) :
  StrUnsignedDecimalLiteral u -> isNaN (parseUnsigned neg (u ++ rest)) = false.
Proof.
  intros Hu. unfold parseUnsigned.
  destruct (startsWith INFINITY_WORD (u ++ rest)) eqn:E; [reflexivity|].
  destruct Hu as [|i e Hi He|i f e Hi Hf He|f e Hf He|i e Hi He].
  - now rewrite startsWith_app in E.
  - destruct (DecimalDigits_inv i Hi) as (d & i' & -> & Hd & _).
    now apply parseDecimal_digit_first.
  - destruct (DecimalDigits_inv i Hi) as (d & i' & -> & Hd & _).
    now apply parseDecimal_digit_first.
  - destruct (DecimalDigits_inv f Hf) as (d & f' & -> & Hd & _).
    now apply parseDecimal_dot_digit_first.
  - destruct (DecimalDigits_inv i Hi) as (d & i' & -> & Hd & _).
    now apply parseDecimal_digit_first.
Qed.

(** [parseFloat] yields a number exactly on the texts that, after leading
    white space, start with a decimal literal. *)
Lemma parseFloat_number_iff (s : jsstring) :
  isNaN (parseFloat s) = false <-> hasLiteralPrefix (trimStart s).
Proof.
  unfold parseFloat, hasLiteralPrefix. split.
  - destruct (trimStart s) as [|c r]; [discriminate|].
    destruct (c =? 43)%N eqn:Ep; [|destruct (c =? 45)%N eqn:Em].
    + apply N.eqb_eq in Ep. subst c. intros H.
      destruct (parseUnsigned_sound _ _ H) as (u & rest & -> & Hu).
      exists (43%N :: u), rest. split; [reflexivity | now apply SD_plus].
    + apply N.eqb_eq in Em. subst c. intros H.
      destruct (parseUnsigned_sound _ _ H) as (u & rest & -> & Hu).
      exists (45%N :: u), rest. split; [reflexivity | now apply SD_minus].
    + intros H. destruct (parseUnsigned_sound _ _ H) as (u & rest & -> & Hu).
      exists u, rest. split; [reflexivity | now apply SD_plain].
  - intros (p & rest & -> & Hp). destruct Hp as [u Hu|u Hu|u Hu].
    + destruct (StrUnsignedDecimalLiteral_head u Hu)
        as (c & u' & Eu & _ & Hplus & Hminus & _).
      pose proof (parseUnsigned_complete false u rest Hu) as H.
      rewrite Eu in *. simpl. now rewrite Hplus, Hminus.
    + simpl. now apply parseUnsigned_complete.
    + simpl. now apply parseUnsigned_complete.
Qed.

(** ** Every number read is the value of a literal *)

Lemma startsWithDigit_dropWhile (l : jsstring) :
  startsWithDigit (dropWhile isDigit l) = false.
Proof.
  induction l as [|c l IH]; [reflexivity|]. simpl.
  destruct (isDigit c) eqn:E; [exact IH | simpl; exact E].
Qed.

Lemma takeWhile_DecimalDigits (l : jsstring) :
  startsWithDigit l = true -> DecimalDigits (takeWhile isDigit l).
Proof.
  intros H. split.
  - destruct l as [|c l]; [discriminate|]. simpl in *. now rewrite H.
  - apply forallb_takeWhile.
Qed.

(** The exponent part at the head of a text, read as far as it goes. *)
Lemma exponent_split (t : jsstring) :
  exists e z x t',
    t = e ++ t' /\ ExponentPartOptMV e z x
    /\ (x = false -> t' = t /\ startsWithExponent t = false)
    /\ (x = true -> startsWithDigit t' = false).
Proof.
  destruct (startsWithExponent t) eqn:E;
    [|exists [], 0%Z, false, t; repeat split; try done; apply EPV_none].
  destruct t as [|c [|sg after]]; try discriminate. simpl in E.
  apply andb_true_iff in E as [Hc Hnext].
  assert (Hexp : forall si z, SignedIntegerMV si z ->
                              ExponentPartOptMV (c :: si) z true).
  { intros si z Hsi. apply orb_true_iff in Hc as [Hc|Hc];
      apply N.eqb_eq in Hc; subst c; now constructor. }
  destruct (isDigit sg) eqn:Hsg.
  - exists (c :: takeWhile isDigit (sg :: after)),
      (Z.of_N (digitsMV (takeWhile isDigit (sg :: after)))), true,
      (dropWhile isDigit (sg :: after)).
    split; [cbn [app]; repeat f_equal; symmetry; apply takeWhile_dropWhile|].
    split; [apply Hexp, SIV_plain, takeWhile_DecimalDigits; exact Hsg|].
    split; [discriminate|]. intros _. apply startsWithDigit_dropWhile.
  - simpl in Hnext. apply andb_true_iff in Hnext as [Hsign Hdig].
    pose proof (takeWhile_DecimalDigits after Hdig) as Hds.
    apply orb_true_iff in Hsign as [Hs|Hs]; apply N.eqb_eq in Hs; subst sg.
    + exists (c :: 43%N :: takeWhile isDigit after),
        (Z.of_N (digitsMV (takeWhile isDigit after))), true,
        (dropWhile isDigit after).
      split; [cbn [app]; repeat f_equal; symmetry; apply takeWhile_dropWhile|].
      split; [now apply Hexp, SIV_plus|].
      split; [discriminate|]. intros _. apply startsWithDigit_dropWhile.
    + exists (c :: 45%N :: takeWhile isDigit after),
        (- Z.of_N (digitsMV (takeWhile isDigit after)))%Z, true,
        (dropWhile isDigit after).
      split; [cbn [app]; repeat f_equal; symmetry; apply takeWhile_dropWhile|].
      split; [now apply Hexp, SIV_minus|].
      split; [discriminate|]. intros _. apply startsWithDigit_dropWhile.
Qed.

Lemma canContinue_after_split (otherwise : literalEnd) (t t' : jsstring)
    (x : bool) :
  (x = false -> t' = t /\ startsWithExponent t = false) ->
  (x = true -> startsWithDigit t' = false) ->
  startsWithDigit t = false ->
  otherwise = AfterFraction
  \/ (otherwise = AfterInteger /\ startsWithDot t = false) ->
  canContinue (endWith x otherwise) t' = false.
Proof.
  intros Hno Hyes Hd Hother. destruct x; simpl; [now apply Hyes|].
  destruct (Hno eq_refl) as [-> He].
  destruct Hother as [-> | [-> Hdot]]; simpl; now rewrite Hd, He, ?Hdot.
Qed.

Lemma parseDecimal_split (neg : bool) (s : jsstring) :
  isNaN (parseDecimal neg s) = false ->
  exists u rest mv en,
    s = u ++ rest /\ StrUnsignedDecimalLiteralMV u mv en
    /\ canContinue en rest = false.
Proof.
  unfold parseDecimal. cbv zeta.
  pose proof (takeWhile_dropWhile isDigit s) as Hs.
  pose proof (forallb_takeWhile isDigit s) as Hint.
  pose proof (startsWithDigit_dropWhile s) as Hnd.
  destruct (takeWhile isDigit s) as [|d int] eqn:Eint.
  - simpl in Hs. destruct (dropWhile isDigit s) as [|c r] eqn:Ed;
      [discriminate|].
    destruct (c =? 46)%N eqn:Ec; [|discriminate].
    apply N.eqb_eq in Ec. subst c.
    pose proof (takeWhile_dropWhile isDigit r) as Hr.
    pose proof (forallb_takeWhile isDigit r) as Hfrac.
    pose proof (startsWithDigit_dropWhile r) as Hnr.
    destruct (takeWhile isDigit r) as [|f frac] eqn:Efrac; [discriminate|].
    intros _.
    destruct (exponent_split (dropWhile isDigit r))
      as (e & z & x & t' & Ht & He & Hno & Hyes).
    exists (46%N :: (f :: frac) ++ e), t'. eexists _, _. split; [|split].
    + rewrite <- Hs, <- Hr, Ht. simpl. now rewrite <- app_assoc.
    + apply (SUV_dot_frac (f :: frac) e z x);
        [split; [discriminate | exact Hfrac] | exact He].
    + apply (canContinue_after_split AfterFraction (dropWhile isDigit r));
        auto.
  - assert (Hi : DecimalDigits (d :: int))
      by (split; [discriminate | exact Hint]).
    destruct (dropWhile isDigit s) as [|c r] eqn:Ed.
    + intros _. exists ((d :: int) ++ []), []. eexists _, _. split; [|split].
      * now rewrite !app_nil_r in *.
      * apply (SUV_int (d :: int) [] 0%Z false Hi EPV_none).
      * reflexivity.
    + destruct (c =? 46)%N eqn:Ec.
      * apply N.eqb_eq in Ec. subst c. intros _.
        pose proof (takeWhile_dropWhile isDigit r) as Hr.
        pose proof (forallb_takeWhile isDigit r) as Hfrac.
        pose proof (startsWithDigit_dropWhile r) as Hnr.
        destruct (exponent_split (dropWhile isDigit r))
          as (e & z & x & t' & Ht & He & Hno & Hyes).
        destruct (takeWhile isDigit r) as [|f frac] eqn:Efrac.
        -- exists ((d :: int) ++ 46%N :: e), t'. eexists _, _. split; [|split].
           ++ rewrite <- Hs. simpl in Hr. rewrite <- Hr, Ht.
              now rewrite <- app_assoc.
           ++ apply (SUV_int_dot (d :: int) e z x Hi He).
           ++ apply (canContinue_after_split AfterFraction
                       (dropWhile isDigit r)); auto.
        -- exists ((d :: int) ++ 46%N :: (f :: frac) ++ e), t'. eexists _, _.
           split; [|split].
           ++ rewrite <- Hs, <- Hr, Ht. rewrite <- !app_assoc. simpl.
              now rewrite <- app_assoc.
           ++ apply (SUV_int_dot_frac (d :: int) (f :: frac) e z x Hi);
                [split; [discriminate | exact Hfrac] | exact He].
           ++ apply (canContinue_after_split AfterFraction
                       (dropWhile isDigit r)); auto.
      * intros _.
        destruct (exponent_split (c :: r))
          as (e & z & x & t' & Ht & He & Hno & Hyes).
        exists ((d :: int) ++ e), t'. eexists _, _. split; [|split].
        -- rewrite <- Hs, Ht. now rewrite <- app_assoc.
        -- apply (SUV_int (d :: int) e z x Hi He).
        -- apply (canContinue_after_split AfterInteger (c :: r)); auto.
Qed.

Lemma parseUnsigned_split (neg : bool) (s : jsstring) :
  isNaN (parseUnsigned neg s) = false ->
  exists u rest mv en,
    s = u ++ rest /\ StrUnsignedDecimalLiteralMV u mv en
    /\ canContinue en rest = false.
Proof.
  unfold parseUnsigned. destruct (startsWith INFINITY_WORD s) eqn:E.
  - intros _. destruct (startsWith_true _ _ E) as [rest ->].
    exists INFINITY_WORD, rest, MVInfinity, AfterInfinity.
    split; [reflexivity|]. split; [apply SUV_infinity | reflexivity].
  - apply parseDecimal_split.
Qed.

Lemma trimStart_idempotent (s : jsstring) : trimStart (trimStart s) = trimStart s.
Proof.
  unfold trimStart. induction s as [|c s IH]; [reflexivity|]. simpl.
  destruct (isWhiteSpace c) eqn:E; [exact IH|]. simpl. now rewrite E.
Qed.

(** Whenever [parseFloat] yields a number, the text, after its leading
    white space, splits into a literal and a rest that cannot continue it,
    and the number is the Number value of that literal. *)
Lemma parseFloat_literal_split (s : jsstring) :
  isNaN (parseFloat s) = false ->
  exists p rest neg mv en,
    trimStart s = p ++ rest /\ StrDecimalLiteralMV p neg mv en
    /\ canContinue en rest = false
    /\ parseFloat s = numberOfMV neg mv.
Proof.
  intros Hnum.
  assert (Hsplit : exists p rest neg mv en,
             trimStart s = p ++ rest /\ StrDecimalLiteralMV p neg mv en
             /\ canContinue en rest = false).
  { revert Hnum. unfold parseFloat.
    destruct (trimStart s) as [|c r]; [discriminate|].
    destruct (c =? 43)%N eqn:Ep; [|destruct (c =? 45)%N eqn:Em].
    - apply N.eqb_eq in Ep. subst c. intros H.
      destruct (parseUnsigned_split _ _ H) as (u & rest & mv & en & -> & Hu & Hc).
      exists (43%N :: u), rest, false, mv, en.
      split; [reflexivity|]. split; [now apply SDV_plus | exact Hc].
    - apply N.eqb_eq in Em. subst c. intros H.
      destruct (parseUnsigned_split _ _ H) as (u & rest & mv & en & -> & Hu & Hc).
      exists (45%N :: u), rest, true, mv, en.
      split; [reflexivity|]. split; [now apply SDV_minus | exact Hc].
    - intros H.
      destruct (parseUnsigned_split _ _ H) as (u & rest & mv & en & E & Hu & Hc).
      exists u, rest, false, mv, en.
      split; [exact E|]. split; [now apply SDV_plain | exact Hc]. }
  destruct Hsplit as (p & rest & neg & mv & en & E & Hp & Hc).
  exists p, rest, neg, mv, en. repeat split; try assumption.
  rewrite <- (proj1 (parseFloat_MV p rest neg mv en Hp Hc)), <- E.
  unfold parseFloat. now rewrite trimStart_idempotent.
Qed.

Lemma remoteCalls_app (a b : list event) :
  remoteCalls (a ++ b) = remoteCalls a ++ remoteCalls b.
Proof.
  induction a as [|ev a IH]; [reflexivity|].
  destruct ev; simpl; now rewrite IH.
Qed.

Section FurtherProperties.

Context {env : Environment}.

(** ** One line of the import loop *)

Lemma importRow_candidate (raw : jsstring) (cnt : Counters) (r : Remote)
    (dateStr amountStr : jsstring) :
  trim raw <> [] ->
  parseColumns (trim raw) !! 0%nat = Some dateStr -> dateStr <> [] ->
  parseColumns (trim raw) !! 5%nat = Some amountStr -> amountStr <> [] ->
  importRow raw cnt r
  = tryCatch
      (match Date_parse dateStr with
       | None =>
           bind (emit (ConsoleError [AStr (lit "无效的日期:"); AStr dateStr]))
             (fun _ => ret (countFailure cnt))
       | Some dateValue =>
           let amount := parseFloat (normalizeAmount amountStr) in
           if isNaN amount then
             bind (emit (ConsoleError [AStr (lit "无效的金额:");
                                       AStr amountStr]))
               (fun _ => ret (countFailure cnt))
           else
             let page := buildPage (parseColumns (trim raw)) dateValue amount in
             bind (await (create page) (PagesCreate page))
               (fun _ =>
                  bind (emit (ConsoleLog
                                [AStr (lit "✅ 已导入:"); AStr dateStr;
                                 argOf (parseColumns (trim raw) !! 3%nat);
                                 AStr amountStr]))
                    (fun _ => ret (countSuccess cnt)))
       end)
      (rowFailed (trim raw) cnt) r.
Proof.
  intros Hne Hd Hdne Ha Hane.
  unfold importRow. rewrite bool_decide_eq_false_2 by exact Hne.
  rewrite Hd, Ha.
  destruct dateStr as [|d0 dr]; [done|]. destruct amountStr as [|a0 ar]; [done|].
  reflexivity.
Qed.

(** A line whose timestamp column is present but is not a date is counted
    as failed, with the timestamp text in the error line; its amount is not
    looked at, no record is created and the remote state is unchanged. *)
Theorem importRow_invalid_date (raw : jsstring) (cnt : Counters) (r : Remote)
    (dateStr amountStr : jsstring) :
  trim raw <> [] ->
  parseColumns (trim raw) !! 0%nat = Some dateStr -> dateStr <> [] ->
  parseColumns (trim raw) !! 5%nat = Some amountStr -> amountStr <> [] ->
  Date_parse dateStr = None ->
  importRow raw cnt r
  = (Normal {| successCount := successCount cnt;
               failureCount := S (failureCount cnt) |},
     r, [ConsoleError [AStr (lit "无效的日期:"); AStr dateStr]]).
Proof.
  intros Hne Hd Hdne Ha Hane Hdate.
  rewrite (importRow_candidate raw cnt r dateStr amountStr) by assumption.
  now rewrite Hdate.
Qed.

(** A line that passes both checks and whose record the remote service
    rejects is counted as failed, not as imported: the error message and
    the line are written, the body of the error too when it is truthy (a
    missing or empty body is not written), and the loop goes on with the
    next line from the state the service is left in. *)
Theorem importRow_create_rejected (raw : jsstring) (rest : list jsstring)
    (cnt : Counters) (r r1 : Remote) (dateStr amountStr : jsstring)
    (dateValue : DateValue) (e : error) :
  trim raw <> [] ->
  parseColumns (trim raw) !! 0%nat = Some dateStr -> dateStr <> [] ->
  parseColumns (trim raw) !! 5%nat = Some amountStr -> amountStr <> [] ->
  Date_parse dateStr = Some dateValue ->
  isNaN (parseFloat (normalizeAmount amountStr)) = false ->
  let page :=
    buildPage (parseColumns (trim raw)) dateValue
      (parseFloat (normalizeAmount amountStr)) in
  create page r = (Rejected e, r1) ->
  let failed :=
    {| successCount := successCount cnt;
       failureCount := S (failureCount cnt) |} in
  let written :=
    PagesCreate page
      :: ConsoleError [AStr (lit "❌ 导入失败:"); AStr (message e)]
      :: ConsoleError [AStr (lit "失败的数据行:"); AStr (trim raw)]
      :: (if truthy (body e) then
            [ConsoleError [AStr (lit "详细错误:");
                           AStr (JSON_stringify (stringOf (body e)))]]
          else []) in
  importRow raw cnt r = (Normal failed, r1, written)
  /\ importRows (raw :: rest) cnt r
     = (let '(c, r', evs) := importRows rest failed r1 in
        (c, r', written ++ evs)).
Proof.
  intros Hne Hd Hdne Ha Hane Hdate Hnum page Hrej failed written.
  assert (E : importRow raw cnt r = (Normal failed, r1, written)).
  { rewrite (importRow_submits raw cnt r dateStr amountStr dateValue)
      by assumption.
    cbv zeta. fold page. rewrite Hrej. reflexivity. }
  split; [exact E|].
  cbn [importRows]. unfold bind at 1. rewrite E.
  destruct (importRows rest failed r1) as [[c r'] evs]. reflexivity.
Qed.

(** The amount check, exactly: a line with a valid timestamp is submitted
    when its normalised amount text starts with a decimal literal, and is
    counted as failed with the amount text logged, without any client call,
    when it does not. *)
Theorem importRow_amount_check_exact (raw : jsstring) (cnt : Counters)
    (r : Remote) (dateStr amountStr : jsstring) (dateValue : DateValue) :
  trim raw <> [] ->
  parseColumns (trim raw) !! 0%nat = Some dateStr -> dateStr <> [] ->
  parseColumns (trim raw) !! 5%nat = Some amountStr -> amountStr <> [] ->
  Date_parse dateStr = Some dateValue ->
  (hasLiteralPrefix (normalizeAmount amountStr) ->
   createdPages (eventsOf (importRow raw cnt) r)
   = [buildPage (parseColumns (trim raw)) dateValue
        (parseFloat (normalizeAmount amountStr))])
  /\ (~ hasLiteralPrefix (normalizeAmount amountStr) ->
      importRow raw cnt r
      = (Normal {| successCount := successCount cnt;
                   failureCount := S (failureCount cnt) |},
         r, [ConsoleError [AStr (lit "无效的金额:"); AStr amountStr]])).
Proof.
  intros Hne Hd Hdne Ha Hane Hdate.
  pose proof (parseFloat_number_iff (normalizeAmount amountStr)) as Hiff.
  rewrite trimStart_normalizeAmount in Hiff. split.
  - intros Hlit. apply Hiff in Hlit.
    pose proof (importRow_submits raw cnt r dateStr amountStr dateValue
                  Hne Hd Hdne Ha Hane Hdate Hlit) as E.
    cbv zeta in E. unfold eventsOf. rewrite E.
    match goal with
    | |- context [create ?p r] => destruct (create p r) as [[[]|e] r1]
    end; [reflexivity|].
    simpl. now destruct (truthy (body e)).
  - intros Hno.
    assert (Hnan : isNaN (parseFloat (normalizeAmount amountStr)) = true).
    { apply not_false_is_true. intros E. now apply Hno, Hiff. }
    rewrite (importRow_candidate raw cnt r dateStr amountStr) by assumption.
    rewrite Hdate. cbv zeta. now rewrite Hnan.
Qed.

(** ** The whole import loop *)

(** What one turn of the loop can do, whatever the line and the
    environment. *)
Lemma importRow_outcome (raw : jsstring) (cnt : Counters) (r : Remote) :
  exists cnt' r' evs,
    importRow raw cnt r = (Normal cnt', r', evs)
    /\ if isCandidate raw then
         (cnt' = countSuccess cnt /\ length (createdPages evs) = 1%nat)
         \/ (cnt' = countFailure cnt /\ (length (createdPages evs) <= 1)%nat)
       else cnt' = cnt /\ r' = r /\ evs = [].
Proof.
  unfold isCandidate, importRow.
  case_bool_decide as Hblank; [now exists cnt, r, []|]. cbn [negb andb].
  destruct (parseColumns (trim raw) !! 0%nat) as [[|d0 dr]|];
    cbn [truthy negb orb andb]; try (now exists cnt, r, []).
  destruct (parseColumns (trim raw) !! 5%nat) as [[|a0 ar]|];
    cbn [truthy negb orb andb]; try (now exists cnt, r, []).
  cbn [stringOf].
  destruct (Date_parse (d0 :: dr)) as [dateValue|].
  - destruct (isNaN (parseFloat (normalizeAmount (a0 :: ar)))).
    + eexists _, _, _. split; [reflexivity|]. right. split; [reflexivity|].
      simpl. lia.
    + unfold tryCatch, bind, await, emit, ret, rowFailed.
      match goal with
      | |- context [create ?p r] => destruct (create p r) as [[[]|e] r1]
      end.
      * eexists _, _, _. split; [reflexivity|]. left. split; reflexivity.
      * destruct (truthy (body e)); eexists _, _, _; (split; [reflexivity|]);
          right; (split; [reflexivity|]); simpl; lia.
  - eexists _, _, _. split; [reflexivity|]. right. split; [reflexivity|].
    simpl. lia.
Qed.

Lemma importRows_returns (lines : list jsstring) (cnt : Counters)
    (r : Remote) :
  exists cnt' r' evs, importRows lines cnt r = (Normal cnt', r', evs).
Proof.
  revert cnt r. induction lines as [|raw lines IH]; intros cnt r.
  - now exists cnt, r, [].
  - destruct (importRow_outcome raw cnt r) as (c1 & r1 & ev1 & E1 & _).
    destruct (IH c1 r1) as (c2 & r2 & ev2 & E2).
    exists c2, r2, (ev1 ++ ev2). cbn [importRows]. unfold bind.
    now rewrite E1, E2.
Qed.

(** The loop never throws and never exits, whatever the lines and whatever
    the remote service answers. Every line that passes the two guards is
    counted exactly once, as imported or as failed, the other lines are not
    counted; a counter never decreases; a line is counted as imported only
    if a record was created for it, and at most one record is created per
    counted line. *)
Theorem importRows_accounting (lines : list jsstring) (cnt : Counters)
    (r : Remote) :
  exists cnt' r' evs,
    importRows lines cnt r = (Normal cnt', r', evs)
    /\ (successCount cnt' + failureCount cnt'
        = successCount cnt + failureCount cnt
          + length (List.filter isCandidate lines))%nat
    /\ (successCount cnt <= successCount cnt')%nat
    /\ (failureCount cnt <= failureCount cnt')%nat
    /\ (successCount cnt' - successCount cnt
        <= length (createdPages evs))%nat
    /\ (length (createdPages evs)
        <= length (List.filter isCandidate lines))%nat.
Proof.
  revert cnt r. induction lines as [|raw lines IH]; intros cnt r.
  - exists cnt, r, []. simpl. repeat split; lia.
  - destruct (importRow_outcome raw cnt r) as (c1 & r1 & ev1 & E1 & H1).
    destruct (IH c1 r1) as (c2 & r2 & ev2 & E2 & Hsum & Hs & Hf & Hlo & Hhi).
    exists c2, r2, (ev1 ++ ev2). split.
    { cbn [importRows]. unfold bind. now rewrite E1, E2. }
    rewrite createdPages_app, length_app. cbn [List.filter].
    destruct (isCandidate raw).
    + destruct H1 as [[-> Hlen]|[-> Hlen]]; simpl in *; repeat split; lia.
    + destruct H1 as (-> & -> & ->). simpl in *. repeat split; lia.
Qed.

(** The loop over a list of lines split in two is the loop over the first
    part followed by the loop over the second part, started with the
    counters and the remote state the first part ends with. *)
Theorem importRows_app (lines1 lines2 : list jsstring) (cnt : Counters)
    (r : Remote) :
  importRows (lines1 ++ lines2) cnt r
  = bind (importRows lines1 cnt) (importRows lines2) r.
Proof.
  revert cnt r. induction lines1 as [|raw lines1 IH]; intros cnt r.
  - simpl. unfold bind, ret.
    now destruct (importRows lines2 cnt r) as [[c r2] ev2].
  - cbn [app importRows]. unfold bind.
    destruct (importRow raw cnt r) as [[[c1|e1|n1] r1] ev1]; try reflexivity.
    rewrite IH. unfold bind.
    destruct (importRows lines1 c1 r1) as [[[c2|e2|n2] r2] ev2];
      try reflexivity.
    destruct (importRows lines2 c2 r2) as [[c3 r3] ev3].
    now rewrite app_assoc.
Qed.

(** White space around a line, such as the carriage return of a CRLF file,
    changes neither what the inference takes from the line nor what the
    import does with it; a line made of white space only is skipped by
    both. *)
Theorem line_whitespace_insensitive (ws1 ws2 raw : jsstring)
    (acc : list jsstring * list jsstring) (cnt : Counters) (r : Remote) :
  forallb isWhiteSpace ws1 = true -> forallb isWhiteSpace ws2 = true ->
  scanLine acc (ws1 ++ raw ++ ws2) = scanLine acc raw
  /\ importRow (ws1 ++ raw ++ ws2) cnt r = importRow raw cnt r
  /\ scanLine acc (ws1 ++ ws2) = acc
  /\ importRow (ws1 ++ ws2) cnt r = (Normal cnt, r, []).
Proof.
  intros H1 H2.
  assert (Hblank : trim (ws1 ++ ws2) = []).
  { rewrite <- (app_nil_l ws2). now rewrite trim_surrounded. }
  unfold scanLine, importRow.
  rewrite !trim_surrounded by assumption. rewrite !Hblank.
  repeat split; reflexivity.
Qed.

(** A line with fewer than five commas has no amount column: the import
    skips it without counting it, whatever its other columns hold. *)
Theorem importRow_short_line_skipped (raw : jsstring) (cnt : Counters)
    (r : Remote) :
  (countUnit COMMA (trim raw) < 5)%nat ->
  importRow raw cnt r = (Normal cnt, r, []).
Proof.
  intros Hshort. unfold importRow. case_bool_decide; [reflexivity|].
  assert (Hnone : parseColumns (trim raw) !! 5%nat = None).
  { apply lookup_ge_None. rewrite parseColumns_length. lia. }
  rewrite Hnone. cbn [truthy negb]. now rewrite orb_true_r.
Qed.

(** ** Schema synchronisation, in general *)

Lemma updateDatabaseProperties_no_exit (properties : Schema.t) (r : Remote) :
  forall n, (updateDatabaseProperties properties r).1.1 <> Exit n.
Proof.
  intros n. unfold updateDatabaseProperties, tryCatch, bind, await, emit, throw.
  destruct (retrieve r) as [[db|e1] r1]; [|discriminate].
  destruct (update properties r1) as [[[]|e2] r2]; [|discriminate].
  destruct (retrieve r2) as [[db'|e3] r3]; discriminate.
Qed.

(** The runs of [updateDatabaseProperties], whatever the remote service
    answers: it retrieves, updates with exactly the properties it was
    given, and retrieves again, and it stops at the first of these calls
    that is rejected, issuing no call after it. It returns normally only
    when the three calls succeed, with the answer of the last retrieve; on
    a rejection the last thing it writes is the error line and it throws
    the error of the rejected call. No record is ever created and the
    process is never exited. *)
Theorem updateDatabaseProperties_calls (properties : Schema.t) (r : Remote) :
  let failed e := ConsoleError [AStr (lit "更新数据库属性失败:"); AError e] in
  let current before :=
    ConsoleLog [AStr (lit "当前数据库属性:"); AList (propertyKeys before)] in
  let updated := ConsoleLog [AStr (lit "✅ 数据库属性已更新")] in
  updateDatabaseProperties properties r
  = match retrieve r with
    | (Rejected e, r1) => (Throw e, r1, [DatabasesRetrieve; failed e])
    | (Resolved before, r1) =>
        match update properties r1 with
        | (Rejected e, r2) =>
            (Throw e, r2,
             [DatabasesRetrieve; current before; DatabasesUpdate properties;
              failed e])
        | (Resolved _, r2) =>
            match retrieve r2 with
            | (Rejected e, r3) =>
                (Throw e, r3,
                 [DatabasesRetrieve; current before;
                  DatabasesUpdate properties; updated; DatabasesRetrieve;
                  failed e])
            | (Resolved after, r3) =>
                (Normal after, r3,
                 [DatabasesRetrieve; current before;
                  DatabasesUpdate properties; updated; DatabasesRetrieve])
            end
        end
    end.
Proof.
  intros failed current updated.
  unfold updateDatabaseProperties, tryCatch, bind, await, emit, throw.
  destruct (retrieve r) as [[before|e1] r1]; [|reflexivity].
  destruct (update properties r1) as [[[]|e2] r2]; [|reflexivity].
  destruct (retrieve r2) as [[after|e3] r3]; reflexivity.
Qed.

Lemma updateDatabaseProperties_resolved (properties : Schema.t)
    (r r1 r2 r3 : Remote) (before after : Database) :
  retrieve r = (Resolved before, r1) ->
  update properties r1 = (Resolved tt, r2) ->
  retrieve r2 = (Resolved after, r3) ->
  updateDatabaseProperties properties r
  = (Normal after, r3,
     [DatabasesRetrieve;
      ConsoleLog [AStr (lit "当前数据库属性:"); AList (propertyKeys before)];
      DatabasesUpdate properties;
      ConsoleLog [AStr (lit "✅ 数据库属性已更新")];
      DatabasesRetrieve]).
Proof.
  intros H1 H2 H3.
  unfold updateDatabaseProperties, tryCatch, bind, await, emit.
  now rewrite H1, H2, H3.
Qed.

(** ** Runs of [main] *)

(** [main] never ends with an uncaught error. It exits the process, with
    status 1, exactly when no path is given or the file does not exist,
    and then it has not called the remote service: the remote state is
    untouched and the trace holds console lines only. In every other case
    it returns normally. *)
Theorem main_outcome (csvPath : option jsstring) (r : Remote) :
  let usageError :=
    negb (truthy csvPath) || negb (existsSync (resolve (stringOf csvPath))) in
  completionOf (main csvPath) r = (if usageError then Exit 1 else Normal tt)
  /\ (usageError = true ->
      (main csvPath r).1.2 = r /\ remoteCalls (eventsOf (main csvPath) r) = []).
Proof.
  intros usageError. subst usageError.
  unfold completionOf, eventsOf, main.
  destruct (truthy csvPath); cbn [negb orb];
    [|split; [reflexivity | intros _; split; reflexivity]].
  destruct (existsSync (resolve (stringOf csvPath))); cbn [negb];
    [|split; [reflexivity | intros _; split; reflexivity]].
  split; [|discriminate].
  unfold tryCatch, bind, emit, ret, throw.
  destruct (readFileSync (resolve (stringOf csvPath))) as [content|e];
    [|reflexivity].
  pose proof (updateDatabaseProperties_no_exit
                (getDatabaseProperties (extractUniqueValues content)) r)
    as Hno.
  destruct (updateDatabaseProperties
              (getDatabaseProperties (extractUniqueValues content)) r)
    as [[[db|e|n] r1] evs]; [|reflexivity|now destruct (Hno n)].
  destruct (findIndex isHeaderLine (split NEWLINE content)) as [k|];
    [|reflexivity].
  destruct (importRows_returns (drop (S k) (split NEWLINE content))
              (mkCounters 0 0) r1) as (cnt & r2 & evs2 & E2).
  rewrite E2. reflexivity.
Qed.

(** A file without header line still has the schema synchronised, with
    the two fallback options as the only options, before the run ends in
    the outer handler with the error 'no data section'; no record is
    created. *)
Theorem main_no_header (path csvContent : jsstring) (r r1 r2 r3 : Remote)
    (before after : Database) :
  path <> [] ->
  existsSync (resolve path) = true ->
  readFileSync (resolve path) = Resolved csvContent ->
  findIndex isHeaderLine (split NEWLINE csvContent) = None ->
  let properties := getDatabaseProperties (extractUniqueValues csvContent) in
  retrieve r = (Resolved before, r1) ->
  update properties r1 = (Resolved tt, r2) ->
  retrieve r2 = (Resolved after, r3) ->
  optionNames (Schema.Category properties) = [lit "其他"]
  /\ optionNames (Schema.Payment_Method properties) = [lit "未知"]
  /\ remoteCalls (eventsOf (main (Some path)) r)
     = [DatabasesRetrieve; DatabasesUpdate properties; DatabasesRetrieve]
  /\ last (eventsOf (main (Some path)) r)
     = Some (ConsoleError [AStr (lit "处理过程中出错:");
                           AError (mkError (lit "找不到数据部分") None)])
  /\ (main (Some path) r).1 = (Normal tt, r3).
Proof.
  intros Hpath Hexists Hread Hidx properties H1 H2 H3.
  pose proof (updateDatabaseProperties_resolved properties r r1 r2 r3
                before after H1 H2 H3) as E.
  assert (Huv : extractUniqueValues csvContent
                = {| categories := []; paymentMethods := [] |}).
  { unfold extractUniqueValues. now rewrite Hidx. }
  split; [subst properties; now rewrite Huv|].
  split; [subst properties; now rewrite Huv|].
  destruct path as [|c0 path']; [done|].
  unfold eventsOf, main. cbn [truthy negb stringOf]. rewrite Hexists.
  cbn [negb]. unfold tryCatch, bind, emit, ret, throw. rewrite Hread.
  fold properties. rewrite E, Hidx. repeat split; reflexivity.
Qed.

(** A run on a file with a header line, when the schema calls succeed:
    the remote calls are the three schema calls, the update carrying the
    schema inferred from the file, followed by the calls of the import
    loop and nothing else; the loop runs over the lines after the header,
    from counters at zero and from the state the schema calls leave; the
    run ends with the summary lines, which give the final counters. *)
Theorem main_success_run (path csvContent : jsstring) (dataStartIndex : nat)
    (r r1 r2 r3 : Remote) (before after : Database) :
  path <> [] ->
  existsSync (resolve path) = true ->
  readFileSync (resolve path) = Resolved csvContent ->
  findIndex isHeaderLine (split NEWLINE csvContent) = Some dataStartIndex ->
  let properties := getDatabaseProperties (extractUniqueValues csvContent) in
  retrieve r = (Resolved before, r1) ->
  update properties r1 = (Resolved tt, r2) ->
  retrieve r2 = (Resolved after, r3) ->
  exists cnt r4 rowEvents pre,
    importRows (drop (S dataStartIndex) (split NEWLINE csvContent))
      (mkCounters 0 0) r3
    = (Normal cnt, r4, rowEvents)
    /\ (main (Some path) r).1 = (Normal tt, r4)
    /\ remoteCalls (eventsOf (main (Some path)) r)
       = [DatabasesRetrieve; DatabasesUpdate properties; DatabasesRetrieve]
           ++ remoteCalls rowEvents
    /\ eventsOf (main (Some path)) r
       = pre ++ rowEvents
           ++ [ConsoleLog [AStr (NEWLINE :: lit "导入统计:")];
               ConsoleLog [AStr (lit "✅ 成功导入: "
                                   ++ ofNat (successCount cnt) ++ lit " 条")];
               ConsoleLog [AStr (lit "❌ 导入失败: "
                                   ++ ofNat (failureCount cnt) ++ lit " 条")];
               ConsoleLog [AStr (lit "🎉 处理完成！")]].
Proof.
  intros Hpath Hexists Hread Hidx properties H1 H2 H3.
  pose proof (updateDatabaseProperties_resolved properties r r1 r2 r3
                before after H1 H2 H3) as E.
  destruct (importRows_returns
              (drop (S dataStartIndex) (split NEWLINE csvContent))
              (mkCounters 0 0) r3) as (cnt & r4 & rowEvents & E2).
  assert (Em : exists pre,
             main (Some path) r
             = (Normal tt, r4,
                pre ++ rowEvents
                  ++ [ConsoleLog [AStr (NEWLINE :: lit "导入统计:")];
                      ConsoleLog [AStr (lit "✅ 成功导入: "
                                          ++ ofNat (successCount cnt)
                                          ++ lit " 条")];
                      ConsoleLog [AStr (lit "❌ 导入失败: "
                                          ++ ofNat (failureCount cnt)
                                          ++ lit " 条")];
                      ConsoleLog [AStr (lit "🎉 处理完成！")]])
             /\ remoteCalls pre
                = [DatabasesRetrieve; DatabasesUpdate properties;
                   DatabasesRetrieve]).
  { destruct path as [|c0 path']; [done|].
    unfold main. cbn [truthy negb stringOf]. rewrite Hexists. cbn [negb].
    unfold tryCatch, bind, emit, ret. rewrite Hread.
    fold properties. rewrite E, Hidx, E2.
    eexists (_ :: _ :: _ :: _ :: _ :: _ :: _ :: _ :: _ :: _ :: _ :: []).
    split.
    - cbn [app]. reflexivity.
    - reflexivity. }
  destruct Em as (pre & Em & Hpre).
  exists cnt, r4, rowEvents, pre. split; [exact E2|].
  unfold eventsOf. rewrite Em. cbn [fst snd]. split; [reflexivity|].
  split; [|reflexivity].
  rewrite !remoteCalls_app, Hpre. simpl. now rewrite app_nil_r.
Qed.

End FurtherProperties.

(** ** The further properties at concrete inputs *)

Lemma importRow_invalid_date_witness :
  @importRow (demoEnv true) (lit "昨天,餐饮美食,商户,商品,支出,abc,零钱")
    (mkCounters 2 0) []
  = (Normal (mkCounters 2 1), [],
     [ConsoleError [AStr (lit "无效的日期:"); AStr (lit "昨天")]]).
Proof.
  apply (@importRow_invalid_date (demoEnv true)
           (lit "昨天,餐饮美食,商户,商品,支出,abc,零钱") (mkCounters 2 0) []
           (lit "昨天") (lit "abc")).
  - vm_compute. discriminate.
  - vm_compute. reflexivity.
  - vm_compute. discriminate.
  - vm_compute. reflexivity.
  - vm_compute. discriminate.
  - vm_compute. reflexivity.
Defined.

Lemma importRow_create_rejected_witness :
  completionOf
    (@importRow (demoEnv true)
       (lit "2024-01-03 10:00:00,a,b,reject,支出,¥3.00,零钱") (mkCounters 2 0))
    []
  = Normal (mkCounters 2 1).
Proof.
  unfold completionOf.
  rewrite (proj1 (@importRow_create_rejected (demoEnv true)
                    (lit "2024-01-03 10:00:00,a,b,reject,支出,¥3.00,零钱") []
                    (mkCounters 2 0) [] [] (lit "2024-01-03 10:00:00")
                    (lit "¥3.00") (lit "2024-01-03 10:00:00") demoError
                    ltac:(vm_compute; discriminate)
                    ltac:(vm_compute; reflexivity)
                    ltac:(vm_compute; discriminate)
                    ltac:(vm_compute; reflexivity)
                    ltac:(vm_compute; discriminate)
                    ltac:(vm_compute; reflexivity)
                    ltac:(vm_compute; reflexivity)
                    ltac:(vm_compute; reflexivity))).
  reflexivity.
Defined.

Lemma importRow_amount_check_exact_witness :
  length
    (createdPages
       (eventsOf
          (@importRow (demoEnv true)
             (lit "2024-01-01 10:00:00,餐饮美食,商户,商品,支出,¥25.50元,零钱")
             (mkCounters 0 0)) []))
  = 1%nat.
Proof.
  rewrite (proj1 (@importRow_amount_check_exact (demoEnv true)
                    (lit "2024-01-01 10:00:00,餐饮美食,商户,商品,支出,¥25.50元,零钱")
                    (mkCounters 0 0) [] (lit "2024-01-01 10:00:00")
                    (lit "¥25.50元") (lit "2024-01-01 10:00:00")
                    ltac:(vm_compute; discriminate)
                    ltac:(vm_compute; reflexivity)
                    ltac:(vm_compute; discriminate)
                    ltac:(vm_compute; reflexivity)
                    ltac:(vm_compute; discriminate)
                    ltac:(vm_compute; reflexivity))).
  - reflexivity.
  - exists (lit "25.50"), (lit "元"). split.
    + vm_compute. reflexivity.
    + exact literal_25_50.
Defined.

Lemma line_whitespace_insensitive_witness :
  let raw := lit "2024-01-01 10:00:00,餐饮美食,商户,商品,支出,¥25.50,零钱" in
  @importRow (demoEnv true) ([32%N] ++ raw ++ [13%N]) (mkCounters 0 0) []
  = @importRow (demoEnv true) raw (mkCounters 0 0) [].
Proof.
  intros raw.
  destruct (@line_whitespace_insensitive (demoEnv true) [32%N] [13%N] raw
              ([], []) (mkCounters 0 0) [] eq_refl eq_refl)
    as (_ & Himport & _).
  exact Himport.
Defined.

Lemma importRow_short_line_skipped_witness :
  @importRow (demoEnv true) (lit "共3笔记录,,,") (mkCounters 1 1) []
  = (Normal (mkCounters 1 1), [], []).
Proof.
  apply (@importRow_short_line_skipped (demoEnv true)).
  vm_compute. lia.
Defined.

Lemma main_no_header_witness :
  remoteCalls
    (eventsOf (@main (fileEnv (lit "微信支付账单明细
共3笔记录")) (Some (lit "bill.csv"))) [])
  = [DatabasesRetrieve;
     DatabasesUpdate
       (getDatabaseProperties {| categories := []; paymentMethods := [] |});
     DatabasesRetrieve].
Proof.
  destruct (@main_no_header (fileEnv (lit "微信支付账单明细
共3笔记录")) (lit "bill.csv") (lit "微信支付账单明细
共3笔记录") [] [] [] [] (mkDatabase [lit "Name"]) (mkDatabase [lit "Name"])
              ltac:(vm_compute; discriminate)
              ltac:(reflexivity) ltac:(reflexivity)
              ltac:(vm_compute; reflexivity)
              ltac:(reflexivity) ltac:(reflexivity) ltac:(reflexivity))
    as (_ & _ & Hcalls & _).
  exact Hcalls.
Defined.

Lemma main_success_run_witness :
  exists cnt r4,
    (@main (demoEnv true) (Some (lit "bill.csv")) []).1 = (Normal tt, r4)
    /\ completionOf
         (@importRows (demoEnv true)
            [lit "2024-01-01 10:00:00,餐饮美食,测试商户,测试商品,支出,¥25.50,零钱";
             []]
            (mkCounters 0 0)) []
       = Normal cnt.
Proof.
  destruct (@main_success_run (demoEnv true) (lit "bill.csv")
              (lit "微信支付账单明细
交易时间,交易类型,交易对方,商品,收/支,金额,支付方式
2024-01-01 10:00:00,餐饮美食,测试商户,测试商品,支出,¥25.50,零钱
")
              1 [] [] [] [] (mkDatabase [lit "Name"]) (mkDatabase [lit "Name"])
              ltac:(vm_compute; discriminate)
              ltac:(vm_compute; reflexivity) ltac:(reflexivity)
              ltac:(vm_compute; reflexivity)
              ltac:(reflexivity) ltac:(reflexivity) ltac:(reflexivity))
    as (cnt & r4 & rowEvents & pre & Hrows & Hmain & _).
  exists cnt, r4. split; [exact Hmain|].
  unfold completionOf.
  change (@importRows (demoEnv true)
            [lit "2024-01-01 10:00:00,餐饮美食,测试商户,测试商品,支出,¥25.50,零钱"; []])
    with (@importRows (demoEnv true)
            (drop 2 (split NEWLINE (lit "微信支付账单明细
交易时间,交易类型,交易对方,商品,收/支,金额,支付方式
2024-01-01 10:00:00,餐饮美食,测试商户,测试商品,支出,¥25.50,零钱
")))).
  now rewrite Hrows.
Defined.
